(** * tablet_wallpaper: the layout-and-composition pipeline of [src/main.c]

    A shallow embedding of the compositor: the rectangle union that builds
    the virtual desktop, the rebasing of the monitors into canvas coordinates,
    the choice of a source picture and of its rotation, the five styles, the
    per-monitor renderer, the canvas compositor and the update cycle.

    C integers are mathematical integers with the 32-bit wrap-around written
    out ([to_int32], [to_uint32]); [int] and [long] are 32 bits wide on the
    Windows target of the program, as are [unsigned long] and [DWORD]. *)

From Stdlib Require Import ZArith List Bool String Lia Floats.
Import ListNotations.

Local Open Scope Z_scope.

(** ** Machine integers *)

(** Conversion to [uint32_t]: reduction modulo 2^32. *)
Definition to_uint32 (z : Z) : Z := z mod 2 ^ 32.

(** Conversion to [int32_t] (two's complement; the result of a signed
    operation that leaves the range is taken to wrap the same way). *)
Definition to_int32 (z : Z) : Z := (z + 2 ^ 31) mod 2 ^ 32 - 2 ^ 31.

(** [abs] of <stdlib.h> on an [int]. *)
Definition c_abs (z : Z) : Z := to_int32 (Z.abs z).

(** ** Error codes

    The functions return [0] or a negated [errno] value; only the distinction
    between the codes matters, every one of them is non-zero. *)

Inductive errno : Type := E2BIG | EFAULT | EINVAL | EIO | ENODATA.

Inductive status : Type :=
| OK
| Err (code : errno).

Definition is_err (st : status) : bool :=
  match st with OK => false | Err _ => true end.

(** ** Data model (lines 26-89) *)

Definition WALLPAPER_STYLE_FIT : Z := 0.
Definition WALLPAPER_STYLE_FIT_EDGE_CUT : Z := 1.
Definition WALLPAPER_STYLE_STRETCH : Z := 2.
Definition WALLPAPER_STYLE_TILE : Z := 3.
Definition WALLPAPER_STYLE_CENTER : Z := 4.
Definition NUM_WALLPAPER_STYLES : Z := 5.

Definition ORIENT_0 : Z := 0.
Definition ORIENT_90 : Z := 1.
Definition ORIENT_180 : Z := 2.
Definition ORIENT_270 : Z := 3.
Definition NUM_MONITOR_ORIENTS : Z := 4.
Definition ORIENT_UNKNOWN : Z := 5.

Definition MONITOR_COUNT_MAX : Z := 8.

Definition DEFAULT_BG_COLOR : string := "#000000".

(** [struct line]. *)
Record line : Type := { ln_s : Z; ln_e : Z }.

(** [struct rectangle]: [x], [y] are [int32_t], the sizes [uint32_t]. *)
Record rectangle : Type :=
  { r_x : Z; r_y : Z; r_width : Z; r_height : Z }.

(** [struct monitor], its nested structs flattened: [info_x m] is
    [m->info.x], [wp_files m] is [m->wallpaper.files], an array of
    [NUM_MONITOR_ORIENTS] strings where [None] is the [NULL] pointer. *)
Record monitor : Type :=
  { active : bool;
    info_x : Z;
    info_y : Z;
    info_width : Z;
    info_height : Z;
    info_orientation : Z;
    info_is_primary : bool;
    virt_pos_x : Z;
    virt_pos_y : Z;
    wp_auto_rotate : bool;
    wp_style : Z;
    wp_bg_color : option string;
    wp_files : list (option string) }.

(** The statically allocated, zero-filled [virtual_desktop]. *)
Definition virtual_desktop_init : rectangle :=
  {| r_x := 0; r_y := 0; r_width := 0; r_height := 0 |}.

(** ** Geometry (lines 337-413) *)

Definition is_axis_cover_point (l : line) (p : Z) : bool :=
  if ln_s l <? ln_e l
  then (ln_s l <=? p) && (p <=? ln_e l)
  else (ln_e l <=? p) && (p <=? ln_s l).

(** The computation of [delta], written twice in the source (lines 368-383
    for the width, 392-406 for the height) with the same shape: [al] and [dl]
    are the lines of the appended rectangle and of the desktop on that axis,
    [d_pos], [d_len] the desktop's origin and extent, [a_pos], [a_len] those
    of the appended rectangle. *)
Definition axis_delta (al dl : line) (d_pos d_len a_pos a_len : Z) : Z :=
  if is_axis_cover_point al d_pos then
    if is_axis_cover_point al (to_int32 (d_pos + d_len))
    then to_int32 d_len
    else c_abs (to_int32 (ln_e al - d_pos))
  else if is_axis_cover_point dl a_pos then
    if is_axis_cover_point dl (to_int32 (a_pos + a_len))
    then to_int32 a_len
    else c_abs (to_int32 (ln_e dl - a_pos))
  else 0.

Definition virtual_desktop_size_compute (desk append : rectangle) : rectangle :=
  let dw := {| ln_s := r_x desk; ln_e := to_int32 (r_x desk + r_width desk) |} in
  let dh := {| ln_s := r_y desk; ln_e := to_int32 (r_y desk + r_height desk) |} in
  let aw := {| ln_s := r_x append; ln_e := to_int32 (r_x append + r_width append) |} in
  let ah := {| ln_s := r_y append; ln_e := to_int32 (r_y append + r_height append) |} in
  if (r_width desk =? 0) && (r_height desk =? 0) then
    {| r_x := r_x append; r_y := r_y append;
       r_width := r_width append; r_height := r_height append |}
  else
    let delta_w :=
      axis_delta aw dw (r_x desk) (r_width desk) (r_x append) (r_width append) in
    let width' := to_uint32 (r_width append + r_width desk - delta_w) in
    let x' := if r_x append <? r_x desk then r_x append else r_x desk in
    let delta_h :=
      axis_delta ah dh (r_y desk) (r_height desk) (r_y append) (r_height append) in
    let height' := to_uint32 (r_height append + r_height desk - delta_h) in
    let y' := if r_y append <? r_y desk then r_y append else r_y desk in
    {| r_x := x'; r_y := y'; r_width := width'; r_height := height' |}.

(** ** Layout (lines 415-453) *)

Definition monitor_rect (m : monitor) : rectangle :=
  {| r_x := info_x m; r_y := info_y m;
     r_width := info_width m; r_height := info_height m |}.

(** The loop of [virtual_desktop_update] over the [monitors] array; the
    rectangle it grows is the one it is handed, whatever it holds. *)
Definition virtual_desktop_update (virtdesk : rectangle) (monitors : list monitor)
  : rectangle :=
  fold_left
    (fun desk m =>
       if active m then virtual_desktop_size_compute desk (monitor_rect m)
       else desk)
    monitors virtdesk.

Definition set_virt_pos (m : monitor) (vx vy : Z) : monitor :=
  {| active := active m;
     info_x := info_x m; info_y := info_y m;
     info_width := info_width m; info_height := info_height m;
     info_orientation := info_orientation m;
     info_is_primary := info_is_primary m;
     virt_pos_x := vx; virt_pos_y := vy;
     wp_auto_rotate := wp_auto_rotate m; wp_style := wp_style m;
     wp_bg_color := wp_bg_color m; wp_files := wp_files m |}.

(** Returns the status, the desktop and the monitors as the call leaves
    them: untouched when it fails. *)
Definition virtual_desktop_position_reposition
  (virtdesk : rectangle) (monitors : list monitor)
  : status * rectangle * list monitor :=
  if (r_height virtdesk =? 0) || (r_width virtdesk =? 0) then
    (Err EINVAL, virtdesk, monitors)
  else
    (OK,
     {| r_x := 0; r_y := 0;
        r_width := r_width virtdesk; r_height := r_height virtdesk |},
     map (fun m =>
            if active m
            then set_virt_pos m (to_int32 (info_x m - r_x virtdesk))
                                (to_int32 (info_y m - r_y virtdesk))
            else m)
         monitors).

(** ** Display enumeration (lines 253-335) *)

(** The fields of [DEVMODE] the program reads. *)
Record DEVMODE : Type :=
  { dmPosition_x : Z;
    dmPosition_y : Z;
    dmPelsWidth : Z;
    dmPelsHeight : Z;
    dmDisplayOrientation : Z }.

(** One display index as the platform reports it: the two bits of
    [StateFlags] that are tested, and what [EnumDisplaySettings] gives for
    the device ([None] when that call fails). *)
Record DISPLAY_DEVICE : Type :=
  { DISPLAY_DEVICE_ACTIVE : bool;
    DISPLAY_DEVICE_MIRRORING_DRIVER : bool;
    current_settings : option DEVMODE }.

(** The [DEVMODE] the loop declares before it asks for the settings. *)
Definition DEVMODE_blank : DEVMODE :=
  {| dmPosition_x := 0; dmPosition_y := 0; dmPelsWidth := 0;
     dmPelsHeight := 0; dmDisplayOrientation := 0 |}.

(** [dmdo_to_orien], indexed by [DMDO_DEFAULT = 0], [DMDO_90 = 1],
    [DMDO_180 = 2], [DMDO_270 = 3] of <wingdi.h>. *)
Definition dmdo_to_orien : list Z :=
  [ORIENT_0; ORIENT_90; ORIENT_180; ORIENT_270].

Definition set_info (m : monitor) (act : bool) (ix iy iw ih io : Z) (ip : bool)
  : monitor :=
  {| active := act;
     info_x := ix; info_y := iy; info_width := iw; info_height := ih;
     info_orientation := io; info_is_primary := ip;
     virt_pos_x := virt_pos_x m; virt_pos_y := virt_pos_y m;
     wp_auto_rotate := wp_auto_rotate m; wp_style := wp_style m;
     wp_bg_color := wp_bg_color m; wp_files := wp_files m |}.

(** [monitors[idx] = m]; an index past the end of the list changes nothing. *)
Fixpoint array_set (monitors : list monitor) (idx : nat) (m : monitor)
  : list monitor :=
  match monitors, idx with
  | [], _ => []
  | _ :: rest, O => m :: rest
  | m0 :: rest, S idx' => m0 :: array_set rest idx' m
  end.

Definition __display_info_update
  (idx : Z) (dev : DISPLAY_DEVICE) (mode : DEVMODE) (monitors : list monitor)
  : status * list monitor :=
  if MONITOR_COUNT_MAX <=? idx then (Err E2BIG, monitors)
  else
    match nth_error monitors (Z.to_nat idx) with
    | None => (Err E2BIG, monitors)
    | Some m =>
        let act :=
          if DISPLAY_DEVICE_MIRRORING_DRIVER dev then false
          else if DISPLAY_DEVICE_ACTIVE dev then true
          else false in
        if negb act then
          (OK, array_set monitors (Z.to_nat idx)
                 (set_info m false 0 0 0 0 0 false))
        else
          let orientation :=
            if dmDisplayOrientation mode <? Z.of_nat (List.length dmdo_to_orien)
            then nth (Z.to_nat (dmDisplayOrientation mode)) dmdo_to_orien
                     ORIENT_UNKNOWN
            else ORIENT_UNKNOWN in
          let is_primary :=
            (dmPosition_x mode =? 0) && (dmPosition_y mode =? 0) in
          (OK, array_set monitors (Z.to_nat idx)
                 (set_info m true
                    (dmPosition_x mode) (dmPosition_y mode)
                    (dmPelsWidth mode) (dmPelsHeight mode)
                    orientation is_primary))
    end.

(** The loop of [display_info_update] from index [i] on: [devices] are the
    displays [EnumDisplayDevices] still has to report. *)
Fixpoint display_info_update_from
  (i : Z) (devices : list DISPLAY_DEVICE) (monitors : list monitor)
  : list monitor :=
  match devices with
  | [] => monitors
  | dev :: rest =>
      let monitors' :=
        if negb (DISPLAY_DEVICE_ACTIVE dev) then
          snd (__display_info_update i dev DEVMODE_blank monitors)
        else if DISPLAY_DEVICE_MIRRORING_DRIVER dev then
          snd (__display_info_update i dev DEVMODE_blank monitors)
        else
          match current_settings dev with
          | None => monitors
          | Some mode => snd (__display_info_update i dev mode monitors)
          end in
      display_info_update_from (i + 1) rest monitors'
  end.

Definition display_info_update
  (devices : list DISPLAY_DEVICE) (monitors : list monitor) : list monitor :=
  display_info_update_from 0 devices monitors.

(** ** Orientation (lines 634-654, 661-686, 711-712) *)

(** [m->wallpaper.files[i]]. *)
Definition files_at (m : monitor) (i : Z) : option string :=
  nth (Z.to_nat i) (wp_files m) None.

(** The scan of lines 648-651: the index of the first entry that is not
    [NULL], counted from [i]; [-1] when the array has none. *)
Fixpoint first_file (files : list (option string)) (i : Z) : Z :=
  match files with
  | [] => -1
  | Some _ :: _ => i
  | None :: rest => first_file rest (i + 1)
  end.

Definition wallpaper_auto_rotate (m : monitor) : Z :=
  let flip_orient :=
    to_int32 (to_uint32 (info_orientation m * 90 + 180) mod 360 / 90) in
  if NUM_MONITOR_ORIENTS <=? flip_orient then -1
  else
    match files_at m flip_orient with
    | Some _ => flip_orient
    | None => first_file (wp_files m) 0
    end.

(** [!wallpaper_path || wallpaper_path[0] == '\0']. *)
Definition path_unset (wallpaper_path : option string) : bool :=
  match wallpaper_path with
  | None => true
  | Some p => String.eqb p EmptyString
  end.

(** Lines 675-686 of [wallpaper_load]: the path handed to the reader and
    [alter_orient], which stays [-1] when the monitor's own entry is used.
    [ENODATA] is the code for a monitor without a source.  The two [None]
    branches of the matches on a path are never taken: [wallpaper_auto_rotate]
    returns the index of an entry that is not [NULL], and a path that is set
    is not [NULL]. *)
Definition wallpaper_source (m : monitor) : errno + (string * Z) :=
  let orient := info_orientation m in
  let wallpaper_path := files_at m orient in
  if path_unset wallpaper_path then
    if negb (wp_auto_rotate m) then inl ENODATA
    else
      let alter_orient := wallpaper_auto_rotate m in
      if alter_orient <? 0 then inl ENODATA
      else
        match files_at m alter_orient with
        | Some p => inr (p, alter_orient)
        | None => inl ENODATA
        end
  else
    match wallpaper_path with
    | Some p => inr (p, -1)
    | None => inl ENODATA
    end.

(** Line 712: [alter_orient] is an [int], [orient] a [uint32_t], so the
    subtractions are taken modulo 2^32 before the remainder. *)
Definition wallpaper_rotation (alter_orient orient : Z) : Z :=
  to_int32
    (to_uint32 (360 - to_uint32 (alter_orient * 90 - to_uint32 (orient * 90)))
     mod 360).

(** ** The image library and the platform

    GraphicsMagick's wand API is used through the calls below.  A wand is
    changed in place by the library; here a call returns the wand it leaves,
    [None] standing for [MagickFail], after which the wand it was given is
    taken to hold what it held before. *)

Class MagickWandAPI : Type :=
  { MagickWand : Type;
    PixelWand : Type;
    NewPixelWand : PixelWand;
    PixelSetColor : PixelWand -> string -> option PixelWand;
    MagickReadImage : string -> option MagickWand;
    MagickWriteImage : MagickWand -> string -> bool;
    MagickGetImageWidth : MagickWand -> Z;
    MagickGetImageHeight : MagickWand -> Z;
    MagickSetImageBackgroundColor : MagickWand -> PixelWand -> option MagickWand;
    MagickRotateImage : MagickWand -> PixelWand -> Z -> option MagickWand;
    MagickScaleImage : MagickWand -> Z -> Z -> option MagickWand;
    MagickCropImage : MagickWand -> Z -> Z -> Z -> Z -> option MagickWand;
    MagickExtentImage : MagickWand -> Z -> Z -> Z -> Z -> option MagickWand;
    MagickCompositeImage : MagickWand -> MagickWand -> Z -> Z -> option MagickWand }.

(** The two platform calls of [desktop_wallpaper_set]. *)
Class PlatformAPI : Type :=
  { wfullpath : string -> option string;
    SystemParametersInfo_SETDESKWALLPAPER : string -> bool }.

(** ** C [double] arithmetic, on the kernel's binary64 floats *)

(** [(double) n] for an unsigned 32-bit [n]: exact. *)
Definition to_double (n : Z) : float := PrimFloat.of_uint63 (Uint63.of_Z n).

(** [(unsigned long) d]: the fractional part is dropped.  C leaves the
    conversion of a value that is not finite undefined; it gives 0 here. *)
Definition double_to_ulong (d : float) : Z :=
  match Prim2SF d with
  | S754_finite sign mant exp =>
      let magnitude :=
        if 0 <=? exp then Z.pos mant * 2 ^ exp else Z.pos mant / 2 ^ (- exp) in
      to_uint32 (if sign then - magnitude else magnitude)
  | _ => 0
  end.

Section Compositor.

Context {magick : MagickWandAPI} {platform : PlatformAPI}.

(** ** Style engine (lines 455-632)

    Each function returns its status and the wand as the call leaves it. *)

Definition FIT_WIDTH : Z := 0.
Definition FIT_HEIGHT : Z := 1.

Definition wallpaper_style_fit_apply (m : monitor) (w : MagickWand)
  : status * MagickWand :=
  let mon_width := info_width m in
  let mon_height := info_height m in
  let pic_width := to_uint32 (MagickGetImageWidth w) in
  let pic_height := to_uint32 (MagickGetImageHeight w) in
  let mon_aspect := PrimFloat.div (to_double mon_width) (to_double mon_height) in
  let pic_aspect := PrimFloat.div (to_double pic_width) (to_double pic_height) in
  let '(style, scale) :=
    if PrimFloat.ltb mon_aspect pic_aspect
    then (FIT_WIDTH, PrimFloat.div (to_double pic_width) (to_double (info_width m)))
    else (FIT_HEIGHT, PrimFloat.div (to_double pic_height) (to_double (info_height m))) in
  match MagickScaleImage w
          (double_to_ulong (PrimFloat.div (to_double pic_width) scale))
          (double_to_ulong (PrimFloat.div (to_double pic_height) scale)) with
  | None => (Err EFAULT, w)
  | Some w =>
      if style =? FIT_WIDTH then
        let scaled_height := to_uint32 (MagickGetImageHeight w) in
        if scaled_height <? mon_height then
          match MagickExtentImage w mon_width mon_height 0
                  (to_int32 (to_uint32 (mon_height - scaled_height) / 2)) with
          | None => (Err EFAULT, w)
          | Some w => (OK, w)
          end
        else (OK, w)
      else if style =? FIT_HEIGHT then
        let scaled_width := to_uint32 (MagickGetImageWidth w) in
        if scaled_width <? mon_width then
          match MagickExtentImage w mon_width mon_height
                  (to_int32 (to_uint32 (mon_width - scaled_width) / 2)) 0 with
          | None => (Err EFAULT, w)
          | Some w => (OK, w)
          end
        else (OK, w)
      else (OK, w)
  end.

Definition wallpaper_style_fit_edge_cut_apply (m : monitor) (w : MagickWand)
  : status * MagickWand :=
  let mon_width := info_width m in
  let mon_height := info_height m in
  let pic_width := to_uint32 (MagickGetImageWidth w) in
  let pic_height := to_uint32 (MagickGetImageHeight w) in
  let mon_aspect := PrimFloat.div (to_double mon_width) (to_double mon_height) in
  let pic_aspect := PrimFloat.div (to_double pic_width) (to_double pic_height) in
  let '(style, scale) :=
    if PrimFloat.ltb mon_aspect pic_aspect
    then (FIT_HEIGHT, PrimFloat.div (to_double pic_height) (to_double (info_height m)))
    else (FIT_WIDTH, PrimFloat.div (to_double pic_width) (to_double (info_width m))) in
  match MagickScaleImage w
          (double_to_ulong (PrimFloat.div (to_double pic_width) scale))
          (double_to_ulong (PrimFloat.div (to_double pic_height) scale)) with
  | None => (Err EFAULT, w)
  | Some w =>
      let cropped :=
        if style =? FIT_WIDTH then
          MagickCropImage w mon_width mon_height 0
            (to_int32 (to_uint32 (MagickGetImageHeight w - mon_height) / 2))
        else if style =? FIT_HEIGHT then
          MagickCropImage w mon_width mon_height
            (to_int32 (to_uint32 (MagickGetImageWidth w - mon_width) / 2)) 0
        else Some w in
      match cropped with
      | None => (Err EFAULT, w)
      | Some w => (OK, w)
      end
  end.

Definition wallpaper_style_stretch_apply (m : monitor) (w : MagickWand)
  : status * MagickWand :=
  match MagickScaleImage w (info_width m) (info_height m) with
  | None => (Err EFAULT, w)
  | Some w => (OK, w)
  end.

(** The [while] loop of lines 581-595, [fuel] bounding its passes: [None]
    when the bound is reached with [filled_height] still short. *)
Fixpoint tile_loop (fuel : nat) (orig : MagickWand)
  (pic_width pic_height mon_width mon_height : Z)
  (w : MagickWand) (x y filled_height : Z) : option (status * MagickWand) :=
  if filled_height <? mon_height then
    match fuel with
    | O => None
    | S fuel' =>
        match MagickCompositeImage w orig (to_int32 x) (to_int32 y) with
        | None => Some (Err EFAULT, w)
        | Some w =>
            let x := to_uint32 (x + pic_width) in
            if mon_width <=? x then
              tile_loop fuel' orig pic_width pic_height mon_width mon_height
                w 0 (to_uint32 (y + pic_height))
                (to_uint32 (filled_height + pic_height))
            else
              tile_loop fuel' orig pic_width pic_height mon_width mon_height
                w x y filled_height
        end
    end
  else Some (OK, w).

(** Passes that suffice for a picture with at least one column and one
    row (see [tile_loop_ends]). *)
Definition tile_fuel (mon_width mon_height : Z) : nat :=
  Z.to_nat (mon_height * (mon_width + 1) + mon_width + 1).

(** On a picture without a column or a row the loop of the source never
    ends; the library holds no such picture, and the model reports
    [EFAULT] there. *)
Definition wallpaper_style_tile_apply (m : monitor) (w : MagickWand)
  : status * MagickWand :=
  let pic_width := to_uint32 (MagickGetImageWidth w) in
  let pic_height := to_uint32 (MagickGetImageHeight w) in
  let mon_width := info_width m in
  let mon_height := info_height m in
  if (mon_width <=? pic_width) && (mon_height <=? pic_height) then
    match MagickCropImage w (info_width m) (info_height m) 0 0 with
    | None => (Err EFAULT, w)
    | Some w => (OK, w)
    end
  else
    let orig := w in
    match MagickExtentImage w mon_width mon_height
            (to_int32 mon_width) (to_int32 mon_height) with
    | None => (Err EFAULT, w)
    | Some w =>
        match tile_loop (tile_fuel mon_width mon_height) orig
                pic_width pic_height mon_width mon_height w 0 0 0 with
        | Some result => result
        | None => (Err EFAULT, w)
        end
    end.

Definition wallpaper_style_center_apply (m : monitor) (w : MagickWand)
  : status * MagickWand :=
  let mon_width := info_width m in
  let mon_height := info_height m in
  let pic_width := to_uint32 (MagickGetImageWidth w) in
  let pic_height := to_uint32 (MagickGetImageHeight w) in
  if (mon_width =? pic_width) && (mon_height =? pic_width) then (OK, w)
  else
    let changed :=
      if (mon_width <? pic_width) && (mon_height <? pic_height) then
        let x := to_int32 (to_uint32 (pic_width / 2 - mon_width / 2)) in
        let y := to_int32 (to_uint32 (pic_height / 2 - mon_height / 2)) in
        MagickCropImage w mon_width mon_height x y
      else
        let x := to_int32 (to_uint32 (mon_width / 2 - pic_width / 2)) in
        let y := to_int32 (to_uint32 (mon_height / 2 - pic_height / 2)) in
        MagickExtentImage w mon_width mon_height x y in
    match changed with
    | None => (Err EFAULT, w)
    | Some w => (OK, w)
    end.

(** ** Per-monitor renderer (lines 656-760) *)

(** [PixelSetColor] with its status dropped. *)
Definition pixel_set_color (p : PixelWand) (color : string) : PixelWand :=
  match PixelSetColor p color with
  | Some p' => p'
  | None => p
  end.

(** Lines 695-703. *)
Definition background_of (m : monitor) : PixelWand :=
  let bg := pixel_set_color NewPixelWand DEFAULT_BG_COLOR in
  match wp_bg_color m with
  | None => bg
  | Some color =>
      if String.eqb color EmptyString then bg
      else
        match PixelSetColor bg color with
        | Some bg' => bg'
        | None => pixel_set_color bg DEFAULT_BG_COLOR
        end
  end.

(** The status returned and what [*out] holds afterwards: [None] when
    [wallpaper_load] leaves before line 745. *)
Definition wallpaper_load (m : monitor) : status * option MagickWand :=
  let orient := info_orientation m in
  if negb (active m) then (Err ENODATA, None)
  else if NUM_MONITOR_ORIENTS <=? orient then (Err EINVAL, None)
  else
    match wallpaper_source m with
    | inl code => (Err code, None)
    | inr (wallpaper_path, alter_orient) =>
        match MagickReadImage wallpaper_path with
        | None => (Err EIO, None)
        | Some w =>
            let bg := background_of m in
            match MagickSetImageBackgroundColor w bg with
            | None => (Err EFAULT, None)
            | Some w =>
                let rotated :=
                  if 0 <=? alter_orient
                  then MagickRotateImage w bg
                         (wallpaper_rotation alter_orient orient)
                  else Some w in
                match rotated with
                | None => (Err EFAULT, None)
                | Some w =>
                    let style := wp_style m in
                    let styled :=
                      if style =? WALLPAPER_STYLE_FIT
                      then Some (wallpaper_style_fit_apply m w)
                      else if style =? WALLPAPER_STYLE_FIT_EDGE_CUT
                      then Some (wallpaper_style_fit_edge_cut_apply m w)
                      else if style =? WALLPAPER_STYLE_STRETCH
                      then Some (wallpaper_style_stretch_apply m w)
                      else if style =? WALLPAPER_STYLE_TILE
                      then Some (wallpaper_style_tile_apply m w)
                      else if style =? WALLPAPER_STYLE_CENTER
                      then Some (wallpaper_style_center_apply m w)
                      else None in
                    match styled with
                    | None => (Err EINVAL, None)
                    | Some (err, w) => (err, Some w)
                    end
                end
            end
        end
    end.

(** ** Canvas compositor (lines 762-834) *)

Variable out_path : string.

(** The first loop: [err] as the last active monitor leaves it, and the
    [wallpapers] array. *)
Definition wallpapers_load (monitors : list monitor)
  : status * list (option MagickWand) :=
  fold_left
    (fun '(err, wallpapers) m =>
       if negb (active m) then (err, wallpapers ++ [None])
       else
         let '(err', out) := wallpaper_load m in
         (err', wallpapers ++ [out]))
    monitors (OK, []).

(** The second loop; [None] when a paste fails. *)
Fixpoint wallpapers_composite (canvas : MagickWand)
  (tiles : list (monitor * option MagickWand)) : option MagickWand :=
  match tiles with
  | [] => Some canvas
  | (m, wallpaper) :: rest =>
      match active m, wallpaper with
      | true, Some tile =>
          match MagickCompositeImage canvas tile
                  (virt_pos_x m) (virt_pos_y m) with
          | None => None
          | Some canvas' => wallpapers_composite canvas' rest
          end
      | _, _ => wallpapers_composite canvas rest
      end
  end.

(** The status returned and the canvas written to [out_path], if any. *)
Definition wallpaper_generate (virt_desk : rectangle) (monitors : list monitor)
  : status * option MagickWand :=
  let '(err, wallpapers) := wallpapers_load monitors in
  match MagickReadImage "XC:" with
  | None => (err, None)
  | Some canvas =>
      let canvas_bg := pixel_set_color NewPixelWand DEFAULT_BG_COLOR in
      let canvas :=
        match MagickSetImageBackgroundColor canvas canvas_bg with
        | Some canvas' => canvas'
        | None => canvas
        end in
      match MagickExtentImage canvas
              (r_width virt_desk) (r_height virt_desk) 0 0 with
      | None => (err, None)
      | Some canvas =>
          match wallpapers_composite canvas (combine monitors wallpapers) with
          | None => (err, None)
          | Some canvas =>
              if MagickWriteImage canvas out_path then (err, Some canvas)
              else (Err EIO, None)
          end
      end
  end.

(** ** Driver (lines 234-251, 836-855) *)

Definition desktop_wallpaper_set (file : string) : status :=
  match wfullpath file with
  | None => Err EINVAL
  | Some fullpath =>
      if SystemParametersInfo_SETDESKWALLPAPER fullpath then OK
      else Err EFAULT
  end.

(** One update cycle as seen from outside: the status returned, the two
    globals as the cycle leaves them, the canvas written to [out_path] if
    one was, and the status of [desktop_wallpaper_set] if it was called. *)
Record cycle : Type :=
  { cy_status : status;
    cy_virtual_desktop : rectangle;
    cy_monitors : list monitor;
    cy_written : option MagickWand;
    cy_install : option status }.

Definition wallpaper_update
  (virtual_desktop : rectangle) (monitors : list monitor)
  (devices : list DISPLAY_DEVICE) : cycle :=
  let monitors := display_info_update devices monitors in
  let virtual_desktop := virtual_desktop_update virtual_desktop monitors in
  let '(_, virtual_desktop, monitors) :=
    virtual_desktop_position_reposition virtual_desktop monitors in
  let '(err, written) := wallpaper_generate virtual_desktop monitors in
  if is_err err then
    {| cy_status := err; cy_virtual_desktop := virtual_desktop;
       cy_monitors := monitors; cy_written := written; cy_install := None |}
  else
    let err := desktop_wallpaper_set out_path in
    {| cy_status := err; cy_virtual_desktop := virtual_desktop;
       cy_monitors := monitors; cy_written := written;
       cy_install := Some err |}.

End Compositor.

(** ** A reference library: pictures as their sizes *)

(** A picture reduced to its numbers of columns and rows and to the tiles
    pasted on it, each as the position and the size of the pasted picture,
    oldest first. *)
Record picture : Type :=
  { columns : Z;
    rows : Z;
    pasted : list (Z * Z * Z * Z) }.

Definition picture_of_size (c r : Z) : picture :=
  {| columns := c; rows := r; pasted := [] |}.

Fixpoint file_size (files : list (string * (Z * Z))) (path : string)
  : option (Z * Z) :=
  match files with
  | [] => None
  | (name, size) :: rest =>
      if String.eqb name path then Some size else file_size rest path
  end.

Definition picture_read (files : list (string * (Z * Z))) (path : string)
  : option picture :=
  if String.eqb path "XC:" then Some (picture_of_size 1 1)
  else
    match file_size files path with
    | Some (c, r) => Some (picture_of_size c r)
    | None => None
    end.

(** Scaling to no column or no row fails. *)
Definition picture_scale (p : picture) (c r : Z) : option picture :=
  if (c <=? 0) || (r <=? 0) then None else Some (picture_of_size c r).

(** The part of the picture inside the area asked for; fails when there is
    none. *)
Definition picture_crop (p : picture) (c r x y : Z) : option picture :=
  let x0 := Z.max 0 x in
  let y0 := Z.max 0 y in
  let x1 := Z.min (columns p) (x + c) in
  let y1 := Z.min (rows p) (y + r) in
  if (x0 <? x1) && (y0 <? y1) then Some (picture_of_size (x1 - x0) (y1 - y0))
  else None.

(** A canvas of the size asked for; a size without a column or a row keeps
    the picture's own. *)
Definition picture_extent (p : picture) (c r x y : Z) : option picture :=
  if (c =? 0) || (r =? 0) then Some p else Some (picture_of_size c r).

Definition picture_rotate (p : picture) (degrees : Z) : option picture :=
  if (degrees =? 90) || (degrees =? 270)
  then Some (picture_of_size (rows p) (columns p))
  else Some p.

Definition picture_composite (p tile : picture) (x y : Z) : option picture :=
  Some {| columns := columns p; rows := rows p;
          pasted := pasted p ++ [(x, y, columns tile, rows tile)] |}.

(** Modelled from the spec: GraphicsMagick's wand library is not among the
    sources (three of its headers are).  This instance gives each call the
    effect the style contracts and the compositor of the specification
    describe, on pictures reduced to their sizes.  [files] lists the
    readable paths with the size of the picture stored there; every other
    path fails to load, except the built-in blank picture [XC:].  Colours
    are kept as their names, and writing always succeeds. *)
Definition pictures (files : list (string * (Z * Z))) : MagickWandAPI :=
  {| MagickWand := picture;
     PixelWand := string;
     NewPixelWand := EmptyString;
     PixelSetColor := fun _ color => Some color;
     MagickReadImage := picture_read files;
     MagickWriteImage := fun _ _ => true;
     MagickGetImageWidth := columns;
     MagickGetImageHeight := rows;
     MagickSetImageBackgroundColor := fun p _ => Some p;
     MagickRotateImage := fun p _ degrees => picture_rotate p degrees;
     MagickScaleImage := picture_scale;
     MagickCropImage := picture_crop;
     MagickExtentImage := picture_extent;
     MagickCompositeImage := picture_composite |}.

(** Modelled from the spec: the wallpaper-install collaborator, here a
    platform that accepts every path. *)
Definition accepting_platform : PlatformAPI :=
  {| wfullpath := fun file => Some file;
     SystemParametersInfo_SETDESKWALLPAPER := fun _ => true |}.

(** ** Configurations and layouts used below *)

(** An entry of the static [monitors] array with its wallpaper settings
    loaded from the configuration, before any display was enumerated. *)
Definition monitor_configured
  (auto_rotate : bool) (style : Z) (files : list (option string)) : monitor :=
  {| active := false;
     info_x := 0; info_y := 0; info_width := 0; info_height := 0;
     info_orientation := 0; info_is_primary := false;
     virt_pos_x := 0; virt_pos_y := 0;
     wp_auto_rotate := auto_rotate; wp_style := style;
     wp_bg_color := None; wp_files := files |}.

(** An entry the configuration does not mention. *)
Definition monitor_blank : monitor :=
  monitor_configured false 0 [None; None; None; None].

(** The array with its first entries configured. *)
Definition monitors_configured (configured : list monitor) : list monitor :=
  firstn (Z.to_nat MONITOR_COUNT_MAX)
         (configured ++ repeat monitor_blank (Z.to_nat MONITOR_COUNT_MAX)).

(** An active display with the position, size and orientation given. *)
Definition display_at (px py w h orientation : Z) : DISPLAY_DEVICE :=
  {| DISPLAY_DEVICE_ACTIVE := true;
     DISPLAY_DEVICE_MIRRORING_DRIVER := false;
     current_settings :=
       Some {| dmPosition_x := px; dmPosition_y := py;
               dmPelsWidth := w; dmPelsHeight := h;
               dmDisplayOrientation := orientation |} |}.

Definition display_off : DISPLAY_DEVICE :=
  {| DISPLAY_DEVICE_ACTIVE := false;
     DISPLAY_DEVICE_MIRRORING_DRIVER := false;
     current_settings := None |}.

(** The layout of a cycle alone: enumeration, union and rebasing. *)
Definition layout
  (virtual_desktop : rectangle) (monitors : list monitor)
  (devices : list DISPLAY_DEVICE) : status * rectangle * list monitor :=
  let monitors := display_info_update devices monitors in
  virtual_desktop_position_reposition
    (virtual_desktop_update virtual_desktop monitors) monitors.

(** ** The union rule as the specification words it *)

Module Spec.

(** [axis_covers_point]: [min s e <= p <= max s e], endpoints inclusive. *)
Definition axis_covers_point (l : line) (p : Z) : bool :=
  (Z.min (ln_s l) (ln_e l) <=? p) && (p <=? Z.max (ln_s l) (ln_e l)).

(** The per-axis [delta] for [C = [c, c + clen]] and [A = [a, a + alen]]. *)
Definition delta (c clen a alen : Z) : Z :=
  let C := {| ln_s := c; ln_e := c + clen |} in
  let A := {| ln_s := a; ln_e := a + alen |} in
  if axis_covers_point A c then
    if axis_covers_point A (c + clen) then clen else Z.abs (ln_e A - c)
  else if axis_covers_point C a then
    if axis_covers_point C (a + alen) then alen else Z.abs (ln_e C - a)
  else 0.

Definition union_rect (current addend : rectangle) : rectangle :=
  if (r_width current =? 0) && (r_height current =? 0) then addend
  else
    {| r_x := Z.min (r_x current) (r_x addend);
       r_y := Z.min (r_y current) (r_y addend);
       r_width := r_width current + r_width addend
                  - delta (r_x current) (r_width current)
                          (r_x addend) (r_width addend);
       r_height := r_height current + r_height addend
                   - delta (r_y current) (r_height current)
                           (r_y addend) (r_height addend) |}.

(** Two closed intervals with no common point. *)
Definition disjoint_axis (c clen a alen : Z) : Prop :=
  c + clen < a \/ a + alen < c.

End Spec.

(** ** Ranges *)

(** A rectangle whose coordinates and sizes stay well inside 32 bits, so that
    no sum or difference formed by the union wraps. *)
Definition rect_in_range (r : rectangle) : Prop :=
  - 2 ^ 30 <= r_x r < 2 ^ 30 /\ - 2 ^ 30 <= r_y r < 2 ^ 30 /\
  0 <= r_width r <= 2 ^ 30 /\ 0 <= r_height r <= 2 ^ 30.

Definition rect_empty (r : rectangle) : Prop :=
  r_width r = 0 /\ r_height r = 0.

(** The pixel areas [[x, x + width) * [y, y + height)] do not meet. *)
Definition rect_disjoint (a b : rectangle) : Prop :=
  r_x a + r_width a <= r_x b \/ r_x b + r_width b <= r_x a \/
  r_y a + r_height a <= r_y b \/ r_y b + r_height b <= r_y a.

(** A rectangle whose fields hold values of their C types. *)
Definition rect_typed (r : rectangle) : Prop :=
  - 2 ^ 31 <= r_x r < 2 ^ 31 /\ - 2 ^ 31 <= r_y r < 2 ^ 31 /\
  0 <= r_width r < 2 ^ 32 /\ 0 <= r_height r < 2 ^ 32.

(** The desktop after [n] monitors of at most 2^27 pixels a side. *)
Definition desk_bounded (n : Z) (d : rectangle) : Prop :=
  - 2 ^ 27 <= r_x d <= 2 ^ 27 /\ - 2 ^ 27 <= r_y d <= 2 ^ 27 /\
  0 < r_width d <= n * 2 ^ 27 /\ 0 < r_height d <= n * 2 ^ 27.

(** What the data model asks of an active monitor: a position and a
    positive size, here within 2^27 pixels. *)
Definition monitor_in_range (m : monitor) : Prop :=
  active m = true -> desk_bounded 1 (monitor_rect m).

(** The desktop a cycle may start from: the zero-filled global, or what an
    earlier cycle left. *)
Definition desk_start (d : rectangle) : Prop :=
  d = virtual_desktop_init \/ desk_bounded 1 d.

(** A path that is [NULL] or empty. *)
Definition null_or_empty (path : option string) : Prop :=
  path = None \/ path = Some EmptyString.

(** ** Layouts and configurations of the evaluations *)

(** Three displays side by side, the middle one enumerated last. *)
Definition row_of_three : list DISPLAY_DEVICE :=
  [display_at 0 0 1920 1080 0;
   display_at 3840 0 1920 1080 0;
   display_at 1920 0 1920 1080 0].

(** A display to the left of the primary one (scenario S3). *)
Definition left_of_primary : list DISPLAY_DEVICE :=
  [display_at (-1280) 0 1280 1024 0;
   display_at 0 0 1920 1080 0].

(** Two displays side by side, the second reporting an orientation the
    program does not know. *)
Definition second_unrecognised : list DISPLAY_DEVICE :=
  [display_at 0 0 1920 1080 0;
   display_at 1920 0 1920 1080 4].

Definition side_by_side : list DISPLAY_DEVICE :=
  [display_at 0 0 1920 1080 0;
   display_at 1920 0 1920 1080 0].

(** Two monitors configured with one landscape picture each, stretched. *)
Definition two_stretched : list monitor :=
  monitors_configured
    [monitor_configured false WALLPAPER_STYLE_STRETCH
       [Some "a.bmp"%string; None; None; None];
     monitor_configured false WALLPAPER_STYLE_STRETCH
       [Some "b.bmp"%string; None; None; None]].

(** The pictures on disk: [b.bmp] is missing from [disk_a]. *)
Definition disk : list (string * (Z * Z)) :=
  [("a.bmp"%string, (800, 600)); ("b.bmp"%string, (1024, 768))].

Definition disk_a : list (string * (Z * Z)) :=
  [("a.bmp"%string, (800, 600))].

(** A square monitor of 100 pixels a side with the CENTER style, and a
    picture as wide as it and half as high. *)
Definition square_centered : monitor :=
  set_info
    (monitor_configured false WALLPAPER_STYLE_CENTER
       [Some "half.bmp"%string; None; None; None])
    true 0 0 100 100 ORIENT_0 true.

Definition disk_half : list (string * (Z * Z)) :=
  [("half.bmp"%string, (100, 50))].

(** A 2560x1440 monitor with the FIT style and a picture of the same
    aspect ratio. *)
Definition wide_fitted : monitor :=
  set_info
    (monitor_configured false WALLPAPER_STYLE_FIT
       [Some "small.bmp"%string; None; None; None])
    true 0 0 2560 1440 ORIENT_0 true.

Definition disk_small : list (string * (Z * Z)) :=
  [("small.bmp"%string, (704, 396))].

(** A portrait monitor with only the landscape picture set. *)
Definition portrait_auto (A : string) : monitor :=
  set_info
    (monitor_configured true WALLPAPER_STYLE_FIT [Some A; None; None; None])
    true 0 0 1080 1920 ORIENT_90 true.

(** A landscape monitor whose only entry, its own, is an empty path. *)
Definition empty_entry (auto_rotate : bool) : monitor :=
  set_info
    (monitor_configured auto_rotate WALLPAPER_STYLE_FIT
       [Some EmptyString; None; None; None])
    true 0 0 1920 1080 ORIENT_0 true.

Definition out_file : string := "./wallpaper_generated.bmp".

(** The same two displays, the first one with the unknown orientation. *)
Definition first_unrecognised : list DISPLAY_DEVICE :=
  [display_at 0 0 1920 1080 4;
   display_at 1920 0 1920 1080 0].

(** The [monitors] array after the enumeration of [left_of_primary]. *)
Definition left_of_primary_monitors : list monitor :=
  display_info_update left_of_primary two_stretched.

(** The size of what was written, if anything was. *)
Definition written_size {magick : MagickWandAPI} (written : option MagickWand)
  : option (Z * Z) :=
  match written with
  | Some canvas => Some (MagickGetImageWidth canvas, MagickGetImageHeight canvas)
  | None => None
  end.

(** ** Notions used to state what the layout keeps *)

(** What lies between two intervals that do not meet, 0 when they do. *)
Definition axis_gap (c clen a alen : Z) : Z :=
  Z.max 0 (Z.max c a - Z.min (c + clen) (a + alen)).

(** The two rectangles touch or overlap on both axes. *)
Definition meets (d a : rectangle) : Prop :=
  axis_gap (r_x d) (r_width d) (r_x a) (r_width a) = 0 /\
  axis_gap (r_y d) (r_height d) (r_y a) (r_height a) = 0.

(** Every active monitor, at its turn in the loop of
    [virtual_desktop_update], touches or overlaps the rectangle built from
    the monitors before it (the first one finds the rectangle empty). *)
Fixpoint chained (desk : rectangle) (monitors : list monitor) : Prop :=
  match monitors with
  | [] => True
  | m :: rest =>
      if active m then
        (rect_empty desk \/ meets desk (monitor_rect m)) /\
        chained (virtual_desktop_size_compute desk (monitor_rect m)) rest
      else chained desk rest
  end.

(** The monitor lies within the rectangle. *)
Definition inside (m : monitor) (d : rectangle) : Prop :=
  r_x d <= info_x m /\ info_x m + info_width m <= r_x d + r_width d /\
  r_y d <= info_y m /\ info_y m + info_height m <= r_y d + r_height d.

(** Two displays of different sizes side by side (scenario S2), as the
    enumeration leaves them in an array without configuration. *)
Definition side_by_side_monitors : list monitor :=
  display_info_update
    [display_at 0 0 1920 1080 0; display_at 1920 0 2560 1440 0]
    (monitors_configured []).

(** ** Notions used to state what the enumeration does *)

(** One pass of the loop of [display_info_update]: the array after display
    [i], reported as [dev], was handled. *)
Definition display_step (i : Z) (dev : DISPLAY_DEVICE) (monitors : list monitor)
  : list monitor :=
  if negb (DISPLAY_DEVICE_ACTIVE dev) then
    snd (__display_info_update i dev DEVMODE_blank monitors)
  else if DISPLAY_DEVICE_MIRRORING_DRIVER dev then
    snd (__display_info_update i dev DEVMODE_blank monitors)
  else
    match current_settings dev with
    | None => monitors
    | Some mode => snd (__display_info_update i dev mode monitors)
    end.

(** The orientation stored for a [dmDisplayOrientation]. *)
Definition orientation_of (dmdo : Z) : Z :=
  if dmdo <? 4 then dmdo else ORIENT_UNKNOWN.

(** A display that takes no part: not active, or a mirroring driver. *)
Definition display_idle (dev : DISPLAY_DEVICE) : bool :=
  negb (DISPLAY_DEVICE_ACTIVE dev) || DISPLAY_DEVICE_MIRRORING_DRIVER dev.

(** The display is active, not mirroring, and its settings cannot be
    read. *)
Definition display_unreadable (dev : DISPLAY_DEVICE) : Prop :=
  display_idle dev = false /\ current_settings dev = None.

(** The entry of the array that one pass leaves for the display it
    handles. *)
Definition display_entry (dev : DISPLAY_DEVICE) (m : monitor) : monitor :=
  if display_idle dev then set_info m false 0 0 0 0 0 false
  else
    match current_settings dev with
    | None => m
    | Some mode =>
        set_info m true
          (dmPosition_x mode) (dmPosition_y mode)
          (dmPelsWidth mode) (dmPelsHeight mode)
          (if dmDisplayOrientation mode <? Z.of_nat (List.length dmdo_to_orien)
           then nth (Z.to_nat (dmDisplayOrientation mode)) dmdo_to_orien
                    ORIENT_UNKNOWN
           else ORIENT_UNKNOWN)
          ((dmPosition_x mode =? 0) && (dmPosition_y mode =? 0))
    end.

(** An enumeration of three displays: one active, one mirroring driver, one
    whose settings cannot be read. *)
Definition mixed_displays : list DISPLAY_DEVICE :=
  [display_at (-1280) 0 1280 1024 1;
   {| DISPLAY_DEVICE_ACTIVE := true;
      DISPLAY_DEVICE_MIRRORING_DRIVER := true;
      current_settings := None |};
   {| DISPLAY_DEVICE_ACTIVE := true;
      DISPLAY_DEVICE_MIRRORING_DRIVER := false;
      current_settings := None |}].

(** ** Notions used to state what the choice of a source does *)

(** The orientation turned by half a turn. *)
Definition flipped (orient : Z) : Z := (orient + 2) mod 4.

(** No entry of the table is set. *)
Definition no_file (m : monitor) : Prop :=
  Forall (fun path => path = None) (wp_files m).

(** A landscape monitor with auto-rotate whose table holds the two portrait
    pictures only. *)
Definition portraits_only : monitor :=
  set_info
    (monitor_configured true WALLPAPER_STYLE_FIT
       [None; Some "p90.bmp"%string; None; Some "p270.bmp"%string])
    true 0 0 1920 1080 ORIENT_0 true.

(** A monitor turned upside down with auto-rotate and the landscape picture
    for the upright orientation. *)
Definition upside_down : monitor :=
  set_info
    (monitor_configured true WALLPAPER_STYLE_FIT
       [Some "l0.bmp"%string; Some "p90.bmp"%string; None; None])
    true 0 0 1920 1080 ORIENT_180 true.

(** ** Notions used to state what the styles and the compositor deliver *)

(** What is asked of the library for the sizes to come out: scaling and
    extending deliver the size asked for, cropping does when the area asked
    for lies within the picture, and pasting keeps the size of the picture
    pasted on. *)
Definition keeps_sizes (magick : MagickWandAPI) : Prop :=
  (forall w c r w',
      MagickScaleImage w c r = Some w' ->
      MagickGetImageWidth w' = c /\ MagickGetImageHeight w' = r) /\
  (forall w c r x y w',
      MagickExtentImage w c r x y = Some w' -> 0 < c -> 0 < r ->
      MagickGetImageWidth w' = c /\ MagickGetImageHeight w' = r) /\
  (forall w c r x y w',
      MagickCropImage w c r x y = Some w' ->
      0 <= x -> 0 <= y -> 0 < c -> 0 < r ->
      x + c <= MagickGetImageWidth w -> y + r <= MagickGetImageHeight w ->
      MagickGetImageWidth w' = c /\ MagickGetImageHeight w' = r) /\
  (forall w tile x y w',
      MagickCompositeImage w tile x y = Some w' ->
      MagickGetImageWidth w' = MagickGetImageWidth w /\
      MagickGetImageHeight w' = MagickGetImageHeight w).

(** Extending and pasting never fail. *)
Definition never_fails (magick : MagickWandAPI) : Prop :=
  (forall w c r x y, MagickExtentImage w c r x y <> None) /\
  (forall w tile x y, MagickCompositeImage w tile x y <> None).

(** The picture has at least one column and one row, and its size fits a
    signed 32-bit integer. *)
Definition picture_sized {magick : MagickWandAPI} (w : MagickWand) : Prop :=
  0 < MagickGetImageWidth w < 2 ^ 31 /\ 0 < MagickGetImageHeight w < 2 ^ 31.

(** The same of a monitor. *)
Definition monitor_sized (m : monitor) : Prop :=
  0 < info_width m < 2 ^ 31 /\ 0 < info_height m < 2 ^ 31.

(** The picture has the monitor's size. *)
Definition monitor_size {magick : MagickWandAPI} (m : monitor) (w : MagickWand)
  : Prop :=
  MagickGetImageWidth w = info_width m /\ MagickGetImageHeight w = info_height m.

(** The status the first loop of [wallpaper_generate] holds after
    [monitors], having held [err] before. *)
Definition load_status {magick : MagickWandAPI}
  (err : status) (monitors : list monitor) : status :=
  fold_left (fun err m => if active m then fst (wallpaper_load m) else err)
            monitors err.

(** A monitor of 640x400 with the TILE style, one of 1920x1080 with the
    CENTER style, each with its picture set. *)
Definition tiled : monitor :=
  set_info
    (monitor_configured false WALLPAPER_STYLE_TILE
       [Some "tile.bmp"%string; None; None; None])
    true 0 0 640 400 ORIENT_0 true.

Definition centered : monitor :=
  set_info
    (monitor_configured false WALLPAPER_STYLE_CENTER
       [Some "a.bmp"%string; None; None; None])
    true 0 0 1920 1080 ORIENT_0 true.

(** Landscape monitors with auto-rotate and no picture of their own: one
    whose flipped entry is the empty path while a lower entry holds a
    picture, one whose own entry is the empty path, the first the scan
    meets, while a higher entry holds a picture. *)
Definition empty_flipped : monitor :=
  set_info
    (monitor_configured true WALLPAPER_STYLE_FIT
       [None; Some "p90.bmp"%string; Some EmptyString; None])
    true 0 0 1920 1080 ORIENT_0 true.

Definition empty_first : monitor :=
  set_info
    (monitor_configured true WALLPAPER_STYLE_FIT
       [Some EmptyString; Some "p90.bmp"%string; None; None])
    true 0 0 1920 1080 ORIENT_0 true.

(** * Lemmas on machine integers *)

Lemma to_int32_small (z : Z) : - 2 ^ 31 <= z < 2 ^ 31 -> to_int32 z = z.
Proof.
  intros Hz. unfold to_int32.
  rewrite Z.mod_small by lia. lia.
Qed.

Lemma to_uint32_small (z : Z) : 0 <= z < 2 ^ 32 -> to_uint32 z = z.
Proof.
  intros Hz. unfold to_uint32. now apply Z.mod_small.
Qed.

Lemma c_abs_small (z : Z) : - 2 ^ 31 < z < 2 ^ 31 -> c_abs z = Z.abs z.
Proof.
  intros Hz. unfold c_abs. apply to_int32_small. lia.
Qed.

(** * Lemmas on the geometry *)

Lemma is_axis_cover_point_spec (l : line) (p : Z) :
  is_axis_cover_point l p = Spec.axis_covers_point l p.
Proof.
  unfold is_axis_cover_point, Spec.axis_covers_point.
  destruct (Z.ltb_spec (ln_s l) (ln_e l)).
  - rewrite Z.min_l, Z.max_r by lia. reflexivity.
  - rewrite Z.min_r, Z.max_l by lia. reflexivity.
Qed.

Lemma axis_covers_point_iff (s e p : Z) :
  0 <= e - s ->
  Spec.axis_covers_point {| ln_s := s; ln_e := e |} p = true <-> s <= p <= e.
Proof.
  intros Hse. unfold Spec.axis_covers_point. cbn [ln_s ln_e].
  rewrite Z.min_l, Z.max_r by lia.
  rewrite andb_true_iff, !Z.leb_le. tauto.
Qed.

(** Splits on every point test of the goal, turning each outcome into the
    two inequalities it stands for. *)
Ltac cover_cases :=
  repeat match goal with
         | |- context [Spec.axis_covers_point ?l ?p] =>
             let E := fresh "E" in
             destruct (Spec.axis_covers_point l p) eqn:E;
             [ apply axis_covers_point_iff in E; [ | lia ]
             | assert (~ (ln_s l <= p <= ln_e l))
                 by (rewrite <- axis_covers_point_iff by (cbn; lia);
                     destruct l; cbn in *; congruence);
               clear E ]
         end;
  cbn [ln_s ln_e] in *.

Section AxisDelta.

Variables c clen a alen : Z.
Hypothesis Hc : - 2 ^ 30 <= c < 2 ^ 30.
Hypothesis Hclen : 0 <= clen <= 2 ^ 30.
Hypothesis Ha : - 2 ^ 30 <= a < 2 ^ 30.
Hypothesis Halen : 0 <= alen <= 2 ^ 30.

(** The overlap never exceeds either extent. *)
Lemma spec_delta_bounds :
  0 <= Spec.delta c clen a alen <= Z.min clen alen.
Proof using Hc Hclen Ha Halen.
  unfold Spec.delta.
  cover_cases; lia.
Qed.

(** On that range the code's [delta] is the specification's. *)
Lemma axis_delta_refines :
  axis_delta {| ln_s := a; ln_e := to_int32 (a + alen) |}
             {| ln_s := c; ln_e := to_int32 (c + clen) |}
             c clen a alen
  = Spec.delta c clen a alen.
Proof using Hc Hclen Ha Halen.
  unfold axis_delta, Spec.delta.
  rewrite !is_axis_cover_point_spec.
  rewrite !(to_int32_small (c + clen)), !(to_int32_small (a + alen)) by lia.
  cover_cases;
    rewrite ?to_int32_small by lia;
    rewrite ?c_abs_small by lia; try reflexivity.
Qed.

(** Intervals with no common point take the last branch. *)
Lemma spec_delta_disjoint :
  Spec.disjoint_axis c clen a alen -> Spec.delta c clen a alen = 0.
Proof using Hc Hclen Ha Halen.
  intros Hd. unfold Spec.disjoint_axis in Hd. unfold Spec.delta.
  cover_cases; lia.
Qed.

(** The overlap does not depend on which interval is the current one. *)
Lemma spec_delta_comm :
  Spec.delta c clen a alen = Spec.delta a alen c clen.
Proof using Hc Hclen Ha Halen.
  unfold Spec.delta.
  cover_cases; lia.
Qed.

End AxisDelta.

Lemma is_axis_cover_point_ends (s e : Z) :
  is_axis_cover_point {| ln_s := s; ln_e := e |} s = true /\
  is_axis_cover_point {| ln_s := s; ln_e := e |} e = true.
Proof.
  unfold is_axis_cover_point; cbn [ln_s ln_e].
  destruct (Z.ltb_spec s e); rewrite !andb_true_iff, !Z.leb_le; lia.
Qed.

Lemma to_uint32_sub_to_int32 (a w : Z) :
  0 <= w < 2 ^ 32 -> to_uint32 (a + w - to_int32 w) = to_uint32 a.
Proof.
  intros Hw. unfold to_uint32, to_int32.
  destruct (Z_lt_le_dec w (2 ^ 31)) as [Hlo | Hhi].
  - rewrite (Z.mod_small (w + 2 ^ 31)) by lia. f_equal. lia.
  - replace (w + 2 ^ 31) with (w - 2 ^ 31 + 1 * 2 ^ 32) by lia.
    rewrite Z.mod_add by lia.
    rewrite (Z.mod_small (w - 2 ^ 31)) by lia.
    replace (a + w - (w - 2 ^ 31 - 2 ^ 31)) with (a + 1 * 2 ^ 32) by lia.
    now rewrite Z.mod_add by lia.
Qed.

(** The union of two rectangles in range, neither of them adopted, read
    through the specification's rule. *)
Lemma size_compute_refines (current addend : rectangle) :
  rect_in_range current -> rect_in_range addend ->
  virtual_desktop_size_compute current addend = Spec.union_rect current addend.
Proof.
  intros (Hx & Hy & Hw & Hh) (Hax & Hay & Haw & Hah).
  unfold virtual_desktop_size_compute, Spec.union_rect.
  destruct ((r_width current =? 0) && (r_height current =? 0)).
  - now destruct addend.
  - rewrite !axis_delta_refines by assumption.
    pose proof (spec_delta_bounds (r_x current) (r_width current)
                  (r_x addend) (r_width addend) Hx Hw Hax Haw) as Bw.
    pose proof (spec_delta_bounds (r_y current) (r_height current)
                  (r_y addend) (r_height addend) Hy Hh Hay Hah) as Bh.
    rewrite !to_uint32_small by lia.
    f_equal; try lia.
    + destruct (Z.ltb_spec (r_x addend) (r_x current)); lia.
    + destruct (Z.ltb_spec (r_y addend) (r_y current)); lia.
Qed.

Lemma spec_union_rect_comm (a b : rectangle) :
  rect_in_range a -> rect_in_range b ->
  ~ rect_empty a -> ~ rect_empty b ->
  Spec.union_rect a b = Spec.union_rect b a.
Proof.
  intros (Hx & Hy & Hw & Hh) (Hax & Hay & Haw & Hah) Ha Hb.
  unfold Spec.union_rect, rect_empty in *.
  assert (Ea : (r_width a =? 0) && (r_height a =? 0) = false).
  { apply andb_false_iff. rewrite !Z.eqb_neq. lia. }
  assert (Eb : (r_width b =? 0) && (r_height b =? 0) = false).
  { apply andb_false_iff. rewrite !Z.eqb_neq. lia. }
  rewrite Ea, Eb.
  rewrite (spec_delta_comm (r_x a) (r_width a) (r_x b) (r_width b)) by assumption.
  rewrite (spec_delta_comm (r_y a) (r_height a) (r_y b) (r_height b)) by assumption.
  f_equal; lia.
Qed.

(** * The union rule *)

(** C3. The union of the source is the rule of the specification: the
    point test is [min s e <= p <= max s e] with both ends included, and on
    rectangles whose coordinates and sizes stay within 2^30 (so that no
    32-bit sum wraps) [virtual_desktop_size_compute] adopts the addend when
    the current rectangle has no width and no height, and otherwise takes
    per axis the extent [current + addend - delta] with the [delta] of the
    rule and the smaller of the two origins. *)
Theorem union_rect_follows_rule :
  (forall l p, is_axis_cover_point l p = Spec.axis_covers_point l p) /\
  (forall current addend,
      rect_in_range current -> rect_in_range addend ->
      virtual_desktop_size_compute current addend
      = Spec.union_rect current addend) /\
  (forall c clen a alen,
      - 2 ^ 30 <= c < 2 ^ 30 -> 0 <= clen <= 2 ^ 30 ->
      - 2 ^ 30 <= a < 2 ^ 30 -> 0 <= alen <= 2 ^ 30 ->
      Spec.disjoint_axis c clen a alen -> Spec.delta c clen a alen = 0).
Proof.
  split; [ exact is_axis_cover_point_spec | split ].
  - exact size_compute_refines.
  - exact spec_delta_disjoint.
Qed.

Lemma union_rect_follows_rule_witness :
  let current := {| r_x := 0; r_y := 0; r_width := 1920; r_height := 1080 |} in
  let addend := {| r_x := 1920; r_y := 0; r_width := 2560; r_height := 1440 |} in
  virtual_desktop_size_compute current addend
  = {| r_x := 0; r_y := 0; r_width := 4480; r_height := 1440 |}.
Proof.
  intros current addend.
  rewrite (proj1 (proj2 union_rect_follows_rule) current addend).
  - reflexivity.
  - unfold rect_in_range, current; simpl; lia.
  - unfold rect_in_range, addend; simpl; lia.
Defined.

(** C9, as the code has it. Idempotence holds for every rectangle; the
    order of the arguments does not matter for two disjoint rectangles in
    range as long as neither is the empty one (no width and no height),
    which the union adopts from instead of joining. *)
Theorem union_rect_comm_idem :
  (forall a b,
      rect_in_range a -> rect_in_range b ->
      ~ rect_empty a -> ~ rect_empty b ->
      rect_disjoint a b ->
      virtual_desktop_size_compute a b = virtual_desktop_size_compute b a) /\
  (forall r, rect_typed r -> virtual_desktop_size_compute r r = r).
Proof.
  split.
  - intros a b Ha Hb Na Nb _.
    rewrite !size_compute_refines by assumption.
    now apply spec_union_rect_comm.
  - intros [rx ry rw rh] (Hx & Hy & Hw & Hh).
    unfold virtual_desktop_size_compute, axis_delta. cbn [r_x r_y r_width r_height].
    destruct ((rw =? 0) && (rh =? 0)); [ reflexivity | ].
    destruct (is_axis_cover_point_ends rx (to_int32 (rx + rw))) as [-> ->].
    destruct (is_axis_cover_point_ends ry (to_int32 (ry + rh))) as [-> ->].
    rewrite !Z.ltb_irrefl.
    rewrite !to_uint32_sub_to_int32 by assumption.
    rewrite !to_uint32_small by assumption.
    reflexivity.
Qed.

Lemma union_rect_comm_idem_witness :
  let a := {| r_x := 0; r_y := 0; r_width := 1920; r_height := 1080 |} in
  let b := {| r_x := 1920; r_y := 0; r_width := 2560; r_height := 1440 |} in
  virtual_desktop_size_compute a b = virtual_desktop_size_compute b a /\
  virtual_desktop_size_compute a a = a.
Proof.
  intros a b. split.
  - apply (proj1 union_rect_comm_idem a b);
      unfold rect_in_range, rect_empty, rect_disjoint, a, b; simpl; lia.
  - apply (proj2 union_rect_comm_idem a).
    unfold rect_typed, a; simpl; lia.
Defined.

(** C9 as stated fails on the empty rectangle, which is disjoint from every
    rectangle away from it: taken as the current rectangle it is replaced by
    the addend, taken as the addend it drags the origin to its own. *)
Lemma union_rect_not_comm_on_empty :
  let e := virtual_desktop_init in
  let r := {| r_x := 10; r_y := 10; r_width := 100; r_height := 100 |} in
  rect_in_range e /\ rect_in_range r /\ rect_disjoint e r /\
  virtual_desktop_size_compute e r = r /\
  virtual_desktop_size_compute r e
  = {| r_x := 0; r_y := 0; r_width := 100; r_height := 100 |} /\
  virtual_desktop_size_compute e r <> virtual_desktop_size_compute r e.
Proof.
  intros e r.
  repeat split; try (unfold rect_in_range, rect_disjoint, e, r; simpl; lia).
  vm_compute. discriminate.
Qed.

(** * The layout *)

Lemma desk_bounded_mono (n n' : Z) (d : rectangle) :
  n <= n' -> desk_bounded n d -> desk_bounded n' d.
Proof.
  unfold desk_bounded. intros Hn (Hx & Hy & Hw & Hh). repeat split; lia.
Qed.

Lemma desk_bounded_in_range (n : Z) (d : rectangle) :
  n <= 8 -> desk_bounded n d -> rect_in_range d.
Proof.
  unfold desk_bounded, rect_in_range.
  intros Hn (Hx & Hy & Hw & Hh). repeat split; lia.
Qed.

(** One more monitor: the desktop keeps a positive size, grows by at most
    the monitor's, and its origin is the smaller of the two. *)
Lemma size_compute_step (n : Z) (d a : rectangle) :
  1 <= n <= 8 -> desk_bounded n d -> desk_bounded 1 a ->
  desk_bounded (n + 1) (virtual_desktop_size_compute d a) /\
  r_x (virtual_desktop_size_compute d a) = Z.min (r_x d) (r_x a) /\
  r_y (virtual_desktop_size_compute d a) = Z.min (r_y d) (r_y a).
Proof.
  intros Hn Hd Ha.
  pose proof (desk_bounded_in_range n d (proj2 Hn) Hd) as Rd.
  pose proof (desk_bounded_in_range 1 a ltac:(lia) Ha) as Ra.
  rewrite (size_compute_refines d a Rd Ra).
  destruct Rd as (Rx & Ry & Rw & Rh), Ra as (Rax & Ray & Raw & Rah).
  pose proof (spec_delta_bounds (r_x d) (r_width d) (r_x a) (r_width a)
                Rx Rw Rax Raw) as Bw.
  pose proof (spec_delta_bounds (r_y d) (r_height d) (r_y a) (r_height a)
                Ry Rh Ray Rah) as Bh.
  destruct Hd as (Hx & Hy & Hw & Hh), Ha as (Hax & Hay & Haw & Hah).
  unfold Spec.union_rect.
  replace ((r_width d =? 0) && (r_height d =? 0)) with false
    by (symmetry; apply andb_false_iff; left; apply Z.eqb_neq; lia).
  unfold desk_bounded; cbn [r_x r_y r_width r_height].
  lia.
Qed.

Lemma virtual_desktop_update_cons (d : rectangle) (m : monitor)
  (rest : list monitor) :
  virtual_desktop_update d (m :: rest)
  = virtual_desktop_update
      (if active m then virtual_desktop_size_compute d (monitor_rect m) else d)
      rest.
Proof. reflexivity. Qed.

(** The fold from a desktop that already holds something. *)
Lemma virtual_desktop_update_bounded (monitors : list monitor) :
  forall (n : Z) (d : rectangle),
    1 <= n -> n + Z.of_nat (List.length monitors) <= 9 ->
    desk_bounded n d -> Forall monitor_in_range monitors ->
    desk_bounded (n + Z.of_nat (List.length monitors))
                 (virtual_desktop_update d monitors) /\
    r_x (virtual_desktop_update d monitors) <= r_x d /\
    r_y (virtual_desktop_update d monitors) <= r_y d /\
    Forall (fun m => active m = true ->
                     r_x (virtual_desktop_update d monitors) <= info_x m /\
                     r_y (virtual_desktop_update d monitors) <= info_y m)
           monitors.
Proof.
  induction monitors as [ | m rest IH ]; intros n d Hn Hlen Hd Hall.
  - cbn. rewrite Z.add_0_r.
    refine (conj Hd (conj _ (conj _ _))); try lia. constructor.
  - inversion Hall as [ | ? ? Hm Hrest ]; subst.
    cbn [List.length] in *. rewrite Nat2Z.inj_succ in *.
    rewrite virtual_desktop_update_cons.
    destruct (active m) eqn:Eact.
    + destruct (size_compute_step n d (monitor_rect m)) as (Hd1 & Ex & Ey);
        [ lia | exact Hd | exact (Hm Eact) | ].
      destruct (IH (n + 1) _ ltac:(lia) ltac:(lia) Hd1 Hrest)
        as (Hb & Hx & Hy & Hin).
      cbn [monitor_rect r_x r_y] in Ex, Ey.
      refine (conj _ (conj _ (conj _ _))); try lia.
      * replace (n + Z.succ (Z.of_nat (List.length rest)))
          with (n + 1 + Z.of_nat (List.length rest)) by lia.
        exact Hb.
      * constructor; [ intros _; lia | exact Hin ].
    + destruct (IH n d Hn ltac:(lia) Hd Hrest) as (Hb & Hx & Hy & Hin).
      refine (conj _ (conj _ (conj _ _))); try lia.
      * apply desk_bounded_mono with (n + Z.of_nat (List.length rest));
          [ lia | exact Hb ].
      * constructor; [ intros Habs; congruence | exact Hin ].
Qed.

(** The fold from the zero-filled desktop: the first active monitor is
    adopted, the others are joined to it. *)
Lemma virtual_desktop_update_from_init (monitors : list monitor) :
  (Z.of_nat (List.length monitors) <= 8) ->
  Forall monitor_in_range monitors ->
  (Exists (fun m => active m = true) monitors ->
   desk_bounded 9 (virtual_desktop_update virtual_desktop_init monitors)) /\
  Forall (fun m => active m = true ->
            r_x (virtual_desktop_update virtual_desktop_init monitors)
            <= info_x m /\
            r_y (virtual_desktop_update virtual_desktop_init monitors)
            <= info_y m)
         monitors.
Proof.
  induction monitors as [ | m rest IH ]; intros Hlen Hall.
  - split; [ intros Hex; inversion Hex | constructor ].
  - inversion Hall as [ | ? ? Hm Hrest ]; subst.
    cbn [List.length] in Hlen. rewrite Nat2Z.inj_succ in Hlen.
    rewrite virtual_desktop_update_cons.
    destruct (active m) eqn:Eact.
    + change (virtual_desktop_size_compute virtual_desktop_init (monitor_rect m))
        with (monitor_rect m).
      destruct (virtual_desktop_update_bounded rest 1 (monitor_rect m)
                  ltac:(lia) ltac:(lia) (Hm Eact) Hrest)
        as (Hb & Hx & Hy & Hin).
      cbn [monitor_rect r_x r_y] in Hx, Hy.
      split.
      * intros _. apply desk_bounded_mono with (1 + Z.of_nat (List.length rest));
          [ lia | exact Hb ].
      * constructor; [ intros _; lia | exact Hin ].
    + destruct (IH ltac:(lia) Hrest) as (Hb & Hin).
      split.
      * intros Hex. apply Hb.
        inversion Hex as [ ? ? Hact | ? ? Hex' ]; subst;
          [ congruence | exact Hex' ].
      * constructor; [ intros Habs; congruence | exact Hin ].
Qed.

(** The fold from any desktop a cycle may start from. *)
Lemma virtual_desktop_update_covers (desk : rectangle) (monitors : list monitor) :
  desk_start desk ->
  (List.length monitors <= 8)%nat ->
  Forall monitor_in_range monitors ->
  Exists (fun m => active m = true) monitors ->
  desk_bounded 9 (virtual_desktop_update desk monitors) /\
  Forall (fun m => active m = true ->
            r_x (virtual_desktop_update desk monitors) <= info_x m /\
            r_y (virtual_desktop_update desk monitors) <= info_y m)
         monitors.
Proof.
  intros [-> | Hd] Hlen Hall Hex.
  - destruct (virtual_desktop_update_from_init monitors ltac:(lia) Hall)
      as (Hb & Hin).
    split; [ exact (Hb Hex) | exact Hin ].
  - destruct (virtual_desktop_update_bounded monitors 1 desk
                ltac:(lia) ltac:(lia) Hd Hall) as (Hb & _ & _ & Hin).
    split; [ | exact Hin ].
    apply desk_bounded_mono with (1 + Z.of_nat (List.length monitors));
      [ lia | exact Hb ].
Qed.

(** C8. Whatever desktop a cycle starts from (the zero-filled one or one of
    bounded size left behind), for at most [MONITOR_COUNT_MAX] monitors with
    at least one active, the active ones placed within 2^27 pixels with a
    positive size: the rebasing succeeds and gives every active monitor a
    position that is non-negative on both axes. *)
Theorem rebased_positions_nonneg (desk : rectangle) (monitors : list monitor) :
  desk_start desk ->
  (List.length monitors <= Z.to_nat MONITOR_COUNT_MAX)%nat ->
  Forall monitor_in_range monitors ->
  Exists (fun m => active m = true) monitors ->
  exists canvas monitors',
    virtual_desktop_position_reposition
      (virtual_desktop_update desk monitors) monitors
    = (OK, canvas, monitors') /\
    List.length monitors' = List.length monitors /\
    Forall (fun m => active m = true -> 0 <= virt_pos_x m /\ 0 <= virt_pos_y m)
           monitors'.
Proof.
  intros Hstart Hlen Hall Hex.
  change (Z.to_nat MONITOR_COUNT_MAX) with 8%nat in Hlen.
  destruct (virtual_desktop_update_covers desk monitors Hstart Hlen Hall Hex)
    as ((Hx & Hy & Hw & Hh) & Hin).
  set (d := virtual_desktop_update desk monitors) in *.
  unfold virtual_desktop_position_reposition.
  replace ((r_height d =? 0) || (r_width d =? 0)) with false
    by (symmetry; apply orb_false_iff; split; apply Z.eqb_neq; lia).
  eexists; eexists. split; [ reflexivity | ].
  split; [ apply length_map | ].
  apply Forall_map.
  rewrite Forall_forall in *. intros m Hm.
  specialize (Hin m Hm). specialize (Hall m Hm).
  destruct (active m) eqn:Eact; [ | intros Habs; congruence ].
  intros _. destruct (Hin eq_refl) as (Lx & Ly).
  destruct (Hall Eact) as (Mx & My & _ & _).
  cbn [monitor_rect r_x r_y set_virt_pos virt_pos_x virt_pos_y] in *.
  rewrite !to_int32_small by lia. lia.
Qed.

Lemma rebased_positions_nonneg_witness :
  exists canvas monitors',
    virtual_desktop_position_reposition
      (virtual_desktop_update virtual_desktop_init left_of_primary_monitors)
      left_of_primary_monitors
    = (OK, canvas, monitors') /\
    List.length monitors' = List.length left_of_primary_monitors /\
    Forall (fun m => active m = true -> 0 <= virt_pos_x m /\ 0 <= virt_pos_y m)
           monitors'.
Proof.
  apply (rebased_positions_nonneg virtual_desktop_init left_of_primary_monitors).
  - left. reflexivity.
  - vm_compute. lia.
  - repeat (constructor;
            [ unfold monitor_in_range, desk_bounded; cbn;
              intros Hact; first [ discriminate Hact | lia ] | ]).
    constructor.
  - constructor. reflexivity.
Defined.

(** C2 fails on the code. Three displays of 1920x1080 in a row, each
    sharing an edge with its neighbour, enumerated left, right, middle: the
    union of the first two leaves their gap out, the third fills what is
    already counted, and the canvas comes out 3840 wide while the second
    monitor is placed at 3840 and reaches 5760. *)
Theorem row_of_three_leaves_canvas :
  exists canvas monitors' m,
    layout virtual_desktop_init (monitors_configured []) row_of_three
    = (OK, canvas, monitors') /\
    r_width canvas = 3840 /\ r_height canvas = 1080 /\
    nth_error monitors' 1 = Some m /\ active m = true /\
    virt_pos_x m = 3840 /\ info_width m = 1920 /\
    r_width canvas < virt_pos_x m + info_width m.
Proof.
  do 3 eexists.
  split; [ vm_compute; reflexivity | ].
  cbn. repeat split; lia.
Qed.

(** * The cycle *)

(** C7 fails on the code. [virtual_desktop] is a global that no cycle
    clears: two cycles in a row on the layout of scenario S3 write a canvas
    of 3200x1080, the bounding rectangle, and then one of 4480x1080. *)
Theorem second_cycle_widens_canvas :
  let first :=
    @wallpaper_update (pictures disk) accepting_platform out_file
      virtual_desktop_init two_stretched left_of_primary in
  let second :=
    @wallpaper_update (pictures disk) accepting_platform out_file
      (cy_virtual_desktop first) (cy_monitors first) left_of_primary in
  cy_status first = OK /\
  written_size (cy_written first) = Some (3200, 1080) /\
  cy_virtual_desktop first
  = {| r_x := 0; r_y := 0; r_width := 3200; r_height := 1080 |} /\
  cy_status second = OK /\
  written_size (cy_written second) = Some (4480, 1080) /\
  cy_virtual_desktop second
  = {| r_x := 0; r_y := 0; r_width := 4480; r_height := 1080 |}.
Proof.
  vm_compute. repeat split.
Qed.

(** C5 fails on the code. [wallpaper_generate] returns the status of the
    last active monitor's [wallpaper_load]: with two monitors of which the
    second reports an unknown orientation, or has a picture that cannot be
    read, the first tile is pasted and the canvas written, but the cycle
    returns the error and [desktop_wallpaper_set] is not called.  With the
    failing monitor first the install runs. *)
Theorem last_monitor_failure_skips_install :
  let canvas :=
    {| columns := 3840; rows := 1080; pasted := [(0, 0, 1920, 1080)] |} in
  let bad_orientation :=
    @wallpaper_update (pictures disk) accepting_platform out_file
      virtual_desktop_init two_stretched second_unrecognised in
  let load_failed :=
    @wallpaper_update (pictures disk_a) accepting_platform out_file
      virtual_desktop_init two_stretched side_by_side in
  let bad_first :=
    @wallpaper_update (pictures disk) accepting_platform out_file
      virtual_desktop_init two_stretched first_unrecognised in
  (cy_status bad_orientation = Err EINVAL /\
   cy_written bad_orientation = Some canvas /\
   cy_install bad_orientation = None) /\
  (cy_status load_failed = Err EIO /\
   cy_written load_failed = Some canvas /\
   cy_install load_failed = None) /\
  (cy_status bad_first = OK /\
   cy_written bad_first
   = Some {| columns := 3840; rows := 1080;
             pasted := [(1920, 0, 1920, 1080)] |} /\
   cy_install bad_first = Some OK).
Proof.
  vm_compute. repeat split.
Qed.

Section AnyLibrary.

Context {magick : MagickWandAPI} {platform : PlatformAPI}.

Lemma wallpapers_load_inactive (monitors : list monitor) :
  Forall (fun m => active m = false) monitors ->
  forall acc,
    fst (fold_left
           (fun '(err, wallpapers) m =>
              if negb (active m) then (err, wallpapers ++ [None])
              else
                let '(err', out) := wallpaper_load m in
                (err', wallpapers ++ [out]))
           monitors acc)
    = fst acc.
Proof.
  induction 1 as [ | m rest Hm _ IH ]; intros [err wallpapers]; cbn [fold_left].
  - reflexivity.
  - rewrite Hm. cbn [negb]. now rewrite IH.
Qed.

(** Without an active monitor [wallpaper_generate] can only fail in the
    final write. *)
Lemma wallpaper_generate_inactive (out_path : string) (desk : rectangle)
  (monitors : list monitor) :
  Forall (fun m => active m = false) monitors ->
  fst (wallpaper_generate out_path desk monitors) = OK \/
  wallpaper_generate out_path desk monitors = (Err EIO, None).
Proof.
  intros Hoff. unfold wallpaper_generate, wallpapers_load.
  pose proof (wallpapers_load_inactive monitors Hoff (OK, [])) as Hst.
  destruct (fold_left _ monitors (OK, [])) as [err wallpapers].
  cbn [fst] in Hst. subst err.
  repeat match goal with
         | |- context [match ?scrutinee with _ => _ end] =>
             destruct scrutinee; cbn [fst]
         end; auto.
Qed.

(** Whether or not the rebasing fails, a cycle without an active monitor
    goes on to the compositor and, unless the final write fails, to the
    install. *)
Lemma wallpaper_update_inactive (out_path : string) (desk : rectangle)
  (monitors : list monitor) (devices : list DISPLAY_DEVICE) :
  Forall (fun m => active m = false) (display_info_update devices monitors) ->
  cy_install (wallpaper_update out_path desk monitors devices) <> None \/
  cy_status (wallpaper_update out_path desk monitors devices) = Err EIO.
Proof.
  intros Hoff. unfold wallpaper_update.
  set (ms := display_info_update devices monitors) in *.
  assert (Hsame : snd (virtual_desktop_position_reposition
                         (virtual_desktop_update desk ms) ms) = ms
                  \/ Forall (fun m => active m = false)
                       (snd (virtual_desktop_position_reposition
                               (virtual_desktop_update desk ms) ms))).
  { right. unfold virtual_desktop_position_reposition.
    destruct (_ || _); cbn [snd]; [ exact Hoff | ].
    apply Forall_map. revert Hoff. apply Forall_impl.
    intros m Hm. now rewrite Hm. }
  destruct (virtual_desktop_position_reposition _ ms) as [[st desk'] ms'].
  cbn [snd] in Hsame.
  assert (Hoff' : Forall (fun m => active m = false) ms')
    by (destruct Hsame as [-> | H]; assumption).
  destruct (wallpaper_generate_inactive out_path desk' ms' Hoff') as [Hok | Hio].
  - destruct (wallpaper_generate out_path desk' ms') as [err written].
    cbn [fst] in Hok. subst err. cbn. left. discriminate.
  - rewrite Hio. cbn. right. reflexivity.
Qed.

End AnyLibrary.

(** C6 fails on the code. With no active display the rebasing does return
    [EINVAL] on the zero-filled desktop, but [wallpaper_update] drops that
    status: the compositor runs, a canvas (here the blank 1x1 picture, a
    size of 0x0 being no size to extend to) is written to the output path,
    and the install is called. *)
Theorem empty_layout_cycle_runs :
  let monitors := display_info_update [display_off; display_off] two_stretched in
  let c :=
    @wallpaper_update (pictures disk) accepting_platform out_file
      virtual_desktop_init two_stretched [display_off; display_off] in
  Forall (fun m => active m = false) monitors /\
  virtual_desktop_position_reposition
    (virtual_desktop_update virtual_desktop_init monitors) monitors
  = (Err EINVAL, virtual_desktop_init, monitors) /\
  cy_status c = OK /\
  cy_written c = Some (picture_of_size 1 1) /\
  cy_install c = Some OK.
Proof.
  intros monitors c. split.
  - repeat constructor.
  - vm_compute. repeat split.
Qed.

(** * The source picture and its rotation *)

(** The rotation between two known orientations, without the wrap-around. *)
Lemma wallpaper_rotation_known (alter_orient orient : Z) :
  0 <= alter_orient < NUM_MONITOR_ORIENTS ->
  0 <= orient < NUM_MONITOR_ORIENTS ->
  wallpaper_rotation alter_orient orient
  = (360 - (alter_orient * 90 - orient * 90)) mod 360.
Proof.
  unfold NUM_MONITOR_ORIENTS. intros Ha Ho.
  assert (Ea : alter_orient = 0 \/ alter_orient = 1 \/ alter_orient = 2
               \/ alter_orient = 3) by lia.
  assert (Eo : orient = 0 \/ orient = 1 \/ orient = 2 \/ orient = 3) by lia.
  destruct Ea as [-> | [-> | [-> | ->]]], Eo as [-> | [-> | [-> | ->]]];
    reflexivity.
Qed.

(** C4, as the code has it. A monitor turned by 90 degrees, auto-rotate on,
    with only the landscape picture set: the picture chosen is that one and
    the rotation handed to the library is 90 degrees,
    [(360 - (0 - 90)) mod 360]. *)
Theorem portrait_uses_landscape_rotated_90 (m : monitor) (A : string) :
  info_orientation m = ORIENT_90 ->
  wp_auto_rotate m = true ->
  wp_files m = [Some A; None; None; None] ->
  wallpaper_source m = inr (A, ORIENT_0) /\
  wallpaper_rotation ORIENT_0 (info_orientation m) = 90.
Proof.
  intros Ho Hauto Hfiles. split.
  - unfold wallpaper_source, wallpaper_auto_rotate, files_at.
    rewrite Ho, Hauto, Hfiles. reflexivity.
  - rewrite Ho. reflexivity.
Qed.

Lemma portrait_uses_landscape_rotated_90_witness :
  wallpaper_source (portrait_auto "landscape.bmp")
  = inr ("landscape.bmp"%string, ORIENT_0) /\
  wallpaper_rotation ORIENT_0 (info_orientation (portrait_auto "landscape.bmp"))
  = 90.
Proof.
  apply (portrait_uses_landscape_rotated_90
           (portrait_auto "landscape.bmp") "landscape.bmp");
    reflexivity.
Defined.

(** C4 as stated fails: on the monitor of scenario S4 the rotation is 90
    degrees, not 270. *)
Lemma portrait_rotation_is_not_270 :
  let m := portrait_auto "landscape.bmp" in
  info_orientation m = ORIENT_90 /\ wp_auto_rotate m = true /\
  wp_files m = [Some "landscape.bmp"%string; None; None; None] /\
  wallpaper_source m = inr ("landscape.bmp"%string, ORIENT_0) /\
  wallpaper_rotation ORIENT_0 (info_orientation m) = 90 /\
  wallpaper_rotation ORIENT_0 (info_orientation m) <> 270.
Proof.
  intros m. repeat split. vm_compute. discriminate.
Qed.

(** Four entries, each [NULL] or empty. *)
Lemma four_null_or_empty (files : list (option string)) :
  List.length files = 4%nat -> Forall null_or_empty files ->
  exists a b c d,
    files = [a; b; c; d] /\
    null_or_empty a /\ null_or_empty b /\ null_or_empty c /\ null_or_empty d.
Proof.
  intros Hlen Hall.
  destruct files as [ | a [ | b [ | c [ | d [ | ? ? ] ] ] ] ]; try discriminate.
  inversion Hall as [ | ? ? Ha Hall1 ]; subst.
  inversion Hall1 as [ | ? ? Hb Hall2 ]; subst.
  inversion Hall2 as [ | ? ? Hc Hall3 ]; subst.
  inversion Hall3 as [ | ? ? Hd _ ]; subst.
  exists a, b, c, d. auto.
Qed.

(** With auto-rotate on, entries that are all [NULL] or empty and not all
    [NULL] resolve to the empty path. *)
Lemma wallpaper_source_empty_path (m : monitor) :
  0 <= info_orientation m < NUM_MONITOR_ORIENTS ->
  wp_auto_rotate m = true ->
  List.length (wp_files m) = 4%nat ->
  Forall null_or_empty (wp_files m) ->
  Exists (fun path => path <> None) (wp_files m) ->
  exists alter_orient,
    0 <= alter_orient < NUM_MONITOR_ORIENTS /\
    files_at m alter_orient = Some EmptyString /\
    wallpaper_source m = inr (EmptyString, alter_orient).
Proof.
  unfold NUM_MONITOR_ORIENTS. intros Ho Hauto Hlen Hall Hex.
  destruct (four_null_or_empty _ Hlen Hall)
    as (a & b & c & d & Hfiles & Ha & Hb & Hc & Hd).
  unfold wallpaper_source, wallpaper_auto_rotate, files_at.
  rewrite Hfiles in *. rewrite Hauto.
  assert (Eo : info_orientation m = 0 \/ info_orientation m = 1 \/
               info_orientation m = 2 \/ info_orientation m = 3) by lia.
  unfold null_or_empty in *.
  destruct Ha as [-> | ->], Hb as [-> | ->], Hc as [-> | ->], Hd as [-> | ->];
    try (exfalso;
         repeat match goal with
                | H : Exists _ _ |- _ => inversion H; clear H; subst
                end; congruence);
    destruct Eo as [-> | [-> | [-> | ->]]]; cbv - [Z.le Z.lt];
    eexists; ((split; [ | split; [ | reflexivity ] ]); [ lia | reflexivity ]).
Qed.

Section Renderer.

Context {magick : MagickWandAPI}.

(** A path that cannot be read ends [wallpaper_load] with [EIO]. *)
Lemma wallpaper_load_unreadable (m : monitor) (path : string) (alter_orient : Z) :
  active m = true ->
  0 <= info_orientation m < NUM_MONITOR_ORIENTS ->
  wallpaper_source m = inr (path, alter_orient) ->
  MagickReadImage path = None ->
  wallpaper_load m = (Err EIO, None).
Proof.
  intros Hact Ho Hsrc Hread. unfold wallpaper_load.
  rewrite Hact. cbn [negb].
  replace (NUM_MONITOR_ORIENTS <=? info_orientation m) with false
    by (symmetry; apply Z.leb_gt; lia).
  now rewrite Hsrc, Hread.
Qed.

(** The early return of [wallpaper_style_center_apply] compares the
    monitor's height with the picture's width: a picture as wide as a square
    monitor is left as it is, whatever its height. *)
Lemma center_apply_square (m : monitor) (w : MagickWand) :
  info_width m = to_uint32 (MagickGetImageWidth w) ->
  info_height m = info_width m ->
  wallpaper_style_center_apply m w = (OK, w).
Proof.
  intros Hw Hh. unfold wallpaper_style_center_apply.
  rewrite Hh, Hw, Z.eqb_refl. reflexivity.
Qed.

End Renderer.

(** * The styles *)

(** C1 fails on the code. The CENTER style on a monitor of 100x100 and a
    picture of 100x50: the early return is taken, the picture comes back
    untouched with status 0, and the tile is 100x50, not the monitor's
    100x100. *)
Theorem center_tile_is_not_monitor_sized :
  let tile := picture_of_size 100 50 in
  info_width square_centered = 100 /\
  info_height square_centered = 100 /\
  wp_style square_centered = WALLPAPER_STYLE_CENTER /\
  (@wallpaper_style_center_apply (pictures disk_half) square_centered tile)
  = (OK, tile) /\
  (@wallpaper_load (pictures disk_half) square_centered) = (OK, Some tile).
Proof.
  vm_compute. repeat split.
Qed.

(** The FIT style computes the scaled size in [double]: on a monitor of
    2560x1440 and a picture of 704x396, both 16:9, [396 / (396 / 1440)]
    falls just short of 1440 and the tile is 2560x1439. *)
Lemma fit_tile_rounds_short :
  (@wallpaper_load (pictures disk_small) wide_fitted)
  = (OK, Some (picture_of_size 2560 1439)).
Proof.
  vm_compute. reflexivity.
Qed.

Section TileLoop.

Context {magick : MagickWandAPI}.

Variables (orig : MagickWand) (pic_width pic_height mon_width mon_height : Z).
Hypothesis Hpw : 0 < pic_width < 2 ^ 31.
Hypothesis Hph : 0 < pic_height < 2 ^ 31.
Hypothesis Hmw : 0 <= mon_width < 2 ^ 31.
Hypothesis Hmh : 0 <= mon_height < 2 ^ 31.

(** The rows still to fill, counted in passes, bound the fuel needed. *)
Lemma tile_loop_progress (fuel : nat) :
  forall (w : MagickWand) (x y filled_height : Z),
    0 <= x <= mon_width -> 0 <= filled_height ->
    (filled_height < mon_height ->
     (mon_height - filled_height) * (mon_width + 1) - x < Z.of_nat fuel) ->
    tile_loop fuel orig pic_width pic_height mon_width mon_height
      w x y filled_height <> None.
Proof using Hpw Hph Hmw Hmh.
  induction fuel as [ | fuel IH ]; intros w x y filled Hx Hf Hfuel; cbn [tile_loop].
  - destruct (Z.ltb_spec filled mon_height) as [Hlt | Hge]; [ | discriminate ].
    specialize (Hfuel Hlt). cbn in Hfuel. nia.
  - destruct (Z.ltb_spec filled mon_height) as [Hlt | Hge]; [ | discriminate ].
    specialize (Hfuel Hlt). rewrite Nat2Z.inj_succ in Hfuel.
    destruct (MagickCompositeImage w orig (to_int32 x) (to_int32 y));
      [ | discriminate ].
    rewrite (to_uint32_small (x + pic_width)) by lia.
    rewrite (to_uint32_small (filled + pic_height)) by lia.
    destruct (Z.leb_spec mon_width (x + pic_width)) as [Hwrap | Hstay].
    + apply IH; try lia. intros Hlt'. nia.
    + apply IH; lia.
Qed.

(** On a picture with at least one column and one row the loop of the TILE
    style ends within [tile_fuel]. *)
Lemma tile_loop_ends (w : MagickWand) :
  tile_loop (tile_fuel mon_width mon_height) orig
    pic_width pic_height mon_width mon_height w 0 0 0 <> None.
Proof using Hpw Hph Hmw Hmh.
  apply tile_loop_progress; try lia.
  intros Hlt. unfold tile_fuel. rewrite Z2Nat.id by nia. lia.
Qed.

End TileLoop.

(** * More on the union and the layout *)

Lemma spec_delta_span (c clen a alen : Z) :
  - 2 ^ 30 <= c < 2 ^ 30 -> 0 <= clen <= 2 ^ 30 ->
  - 2 ^ 30 <= a < 2 ^ 30 -> 0 <= alen <= 2 ^ 30 ->
  clen + alen - Spec.delta c clen a alen
  = Z.max (c + clen) (a + alen) - Z.min c a - axis_gap c clen a alen.
Proof.
  intros Hc Hclen Ha Halen. unfold Spec.delta, axis_gap.
  cover_cases; lia.
Qed.

Lemma not_empty_test (d : rectangle) :
  ~ rect_empty d -> 0 <= r_width d -> 0 <= r_height d ->
  (r_width d =? 0) && (r_height d =? 0) = false.
Proof.
  unfold rect_empty. intros Hne Hw Hh.
  apply andb_false_iff. rewrite !Z.eqb_neq. lia.
Qed.

(** The origin and the extents of a union that does not adopt. *)
Lemma size_compute_span (d a : rectangle) :
  rect_in_range d -> rect_in_range a -> ~ rect_empty d ->
  r_x (virtual_desktop_size_compute d a) = Z.min (r_x d) (r_x a) /\
  r_y (virtual_desktop_size_compute d a) = Z.min (r_y d) (r_y a) /\
  r_width (virtual_desktop_size_compute d a)
  = Z.max (r_x d + r_width d) (r_x a + r_width a) - Z.min (r_x d) (r_x a)
    - axis_gap (r_x d) (r_width d) (r_x a) (r_width a) /\
  r_height (virtual_desktop_size_compute d a)
  = Z.max (r_y d + r_height d) (r_y a + r_height a) - Z.min (r_y d) (r_y a)
    - axis_gap (r_y d) (r_height d) (r_y a) (r_height a).
Proof.
  intros Rd Ra Hne.
  rewrite (size_compute_refines d a Rd Ra).
  destruct Rd as (Rx & Ry & Rw & Rh), Ra as (Rax & Ray & Raw & Rah).
  unfold Spec.union_rect.
  rewrite (not_empty_test d Hne) by lia.
  cbn [r_x r_y r_width r_height].
  rewrite <- !spec_delta_span by assumption.
  repeat split; lia.
Qed.

(** X1. The union of a rectangle that is not empty with another one, both
    in range: the origin is the smaller of the two on each axis, and the
    extent on each axis is the span from the smallest start to the largest
    end less the gap between the two intervals; it is the bounding extent
    exactly when they touch or overlap. *)
Theorem union_extent_is_span_less_gap (d a : rectangle) :
  rect_in_range d -> rect_in_range a -> ~ rect_empty d ->
  r_x (virtual_desktop_size_compute d a) = Z.min (r_x d) (r_x a) /\
  r_y (virtual_desktop_size_compute d a) = Z.min (r_y d) (r_y a) /\
  r_width (virtual_desktop_size_compute d a)
  = Z.max (r_x d + r_width d) (r_x a + r_width a) - Z.min (r_x d) (r_x a)
    - axis_gap (r_x d) (r_width d) (r_x a) (r_width a) /\
  r_height (virtual_desktop_size_compute d a)
  = Z.max (r_y d + r_height d) (r_y a + r_height a) - Z.min (r_y d) (r_y a)
    - axis_gap (r_y d) (r_height d) (r_y a) (r_height a).
Proof.
  exact (size_compute_span d a).
Qed.

Lemma union_extent_is_span_less_gap_witness :
  let d := {| r_x := 0; r_y := 0; r_width := 1920; r_height := 1080 |} in
  let a := {| r_x := 3840; r_y := 0; r_width := 1920; r_height := 1080 |} in
  r_x (virtual_desktop_size_compute d a) = Z.min (r_x d) (r_x a) /\
  r_y (virtual_desktop_size_compute d a) = Z.min (r_y d) (r_y a) /\
  r_width (virtual_desktop_size_compute d a)
  = Z.max (r_x d + r_width d) (r_x a + r_width a) - Z.min (r_x d) (r_x a)
    - axis_gap (r_x d) (r_width d) (r_x a) (r_width a) /\
  r_height (virtual_desktop_size_compute d a)
  = Z.max (r_y d + r_height d) (r_y a + r_height a) - Z.min (r_y d) (r_y a)
    - axis_gap (r_y d) (r_height d) (r_y a) (r_height a).
Proof.
  intros d a.
  apply (union_extent_is_span_less_gap d a);
    unfold rect_in_range, rect_empty, d, a; simpl; lia.
Defined.

Lemma desk_bounded_not_empty (n : Z) (d : rectangle) :
  desk_bounded n d -> ~ rect_empty d.
Proof.
  unfold desk_bounded, rect_empty. intros (_ & _ & Hw & _) (Hz & _). lia.
Qed.

(** A union never makes the rectangle smaller than either argument. *)
Lemma size_compute_grows (n : Z) (d a : rectangle) :
  n <= 8 -> desk_bounded n d -> desk_bounded 1 a ->
  r_width d <= r_width (virtual_desktop_size_compute d a) /\
  r_width a <= r_width (virtual_desktop_size_compute d a) /\
  r_height d <= r_height (virtual_desktop_size_compute d a) /\
  r_height a <= r_height (virtual_desktop_size_compute d a).
Proof.
  intros Hn Hd Ha.
  pose proof (desk_bounded_in_range n d Hn Hd) as Rd.
  pose proof (desk_bounded_in_range 1 a ltac:(lia) Ha) as Ra.
  destruct (size_compute_span d a Rd Ra (desk_bounded_not_empty n d Hd))
    as (_ & _ & -> & ->).
  unfold axis_gap. destruct Rd as (? & ? & ? & ?), Ra as (? & ? & ? & ?). lia.
Qed.

Section FoldKeeps.

(** A relation between a monitor and the desktop that every union keeps and
    that joining the monitor establishes. *)
Variable Q : monitor -> rectangle -> Prop.

Hypothesis Q_kept :
  forall n d a m,
    1 <= n <= 8 -> desk_bounded n d -> desk_bounded 1 a ->
    Q m d -> Q m (virtual_desktop_size_compute d a).

Hypothesis Q_joined :
  forall n d m,
    1 <= n <= 8 -> desk_bounded n d -> desk_bounded 1 (monitor_rect m) ->
    Q m (virtual_desktop_size_compute d (monitor_rect m)).

Hypothesis Q_adopted :
  forall m, desk_bounded 1 (monitor_rect m) -> Q m (monitor_rect m).

Lemma update_keeps_bounded (monitors : list monitor) :
  forall (n : Z) (d : rectangle),
    1 <= n -> n + Z.of_nat (List.length monitors) <= 9 ->
    desk_bounded n d -> Forall monitor_in_range monitors ->
    (forall m0, Q m0 d -> Q m0 (virtual_desktop_update d monitors)) /\
    Forall (fun m => active m = true -> Q m (virtual_desktop_update d monitors))
           monitors.
Proof using Q_kept Q_joined.
  induction monitors as [ | m rest IH ]; intros n d Hn Hlen Hd Hall.
  - split; [ auto | constructor ].
  - inversion Hall as [ | ? ? Hm Hrest ]; subst.
    cbn [List.length] in Hlen. rewrite Nat2Z.inj_succ in Hlen.
    rewrite virtual_desktop_update_cons.
    destruct (active m) eqn:Eact.
    + destruct (size_compute_step n d (monitor_rect m)) as (Hd1 & _ & _);
        [ lia | exact Hd | exact (Hm Eact) | ].
      destruct (IH (n + 1) _ ltac:(lia) ltac:(lia) Hd1 Hrest) as (Hkeep & Hin).
      split.
      * intros m0 Hq. apply Hkeep.
        apply (Q_kept n); [ lia | exact Hd | exact (Hm Eact) | exact Hq ].
      * constructor; [ | exact Hin ].
        intros _. apply Hkeep.
        apply (Q_joined n); [ lia | exact Hd | exact (Hm Eact) ].
    + destruct (IH n d Hn ltac:(lia) Hd Hrest) as (Hkeep & Hin).
      split; [ exact Hkeep | ].
      constructor; [ intros Habs; congruence | exact Hin ].
Qed.

Lemma update_keeps_from_init (monitors : list monitor) :
  Z.of_nat (List.length monitors) <= 8 ->
  Forall monitor_in_range monitors ->
  Forall (fun m => active m = true ->
                   Q m (virtual_desktop_update virtual_desktop_init monitors))
         monitors.
Proof using Q_kept Q_joined Q_adopted.
  induction monitors as [ | m rest IH ]; intros Hlen Hall.
  - constructor.
  - inversion Hall as [ | ? ? Hm Hrest ]; subst.
    cbn [List.length] in Hlen. rewrite Nat2Z.inj_succ in Hlen.
    rewrite virtual_desktop_update_cons.
    destruct (active m) eqn:Eact.
    + change (virtual_desktop_size_compute virtual_desktop_init (monitor_rect m))
        with (monitor_rect m).
      destruct (update_keeps_bounded rest 1 (monitor_rect m)
                  ltac:(lia) ltac:(lia) (Hm Eact) Hrest) as (Hkeep & Hin).
      constructor; [ | exact Hin ].
      intros _. apply Hkeep, Q_adopted, (Hm Eact).
    + constructor; [ intros Habs; congruence | ].
      apply IH; [ lia | exact Hrest ].
Qed.

Lemma update_keeps (desk : rectangle) (monitors : list monitor) :
  desk_start desk ->
  (List.length monitors <= 8)%nat ->
  Forall monitor_in_range monitors ->
  Forall (fun m => active m = true -> Q m (virtual_desktop_update desk monitors))
         monitors.
Proof using Q_kept Q_joined Q_adopted.
  intros [-> | Hd] Hlen Hall.
  - apply update_keeps_from_init; [ lia | exact Hall ].
  - apply (update_keeps_bounded monitors 1 desk); try assumption; lia.
Qed.

End FoldKeeps.

Lemma virtual_desktop_update_none_active (desk : rectangle)
  (monitors : list monitor) :
  Forall (fun m => active m = false) monitors ->
  virtual_desktop_update desk monitors = desk.
Proof.
  induction 1 as [ | m rest Hm _ IH ]; [ reflexivity | ].
  now rewrite virtual_desktop_update_cons, Hm.
Qed.

(** The desktop a fold starts from is never made smaller. *)
Lemma update_grows_bounded (monitors : list monitor) :
  forall (n : Z) (d : rectangle),
    1 <= n -> n + Z.of_nat (List.length monitors) <= 9 ->
    desk_bounded n d -> Forall monitor_in_range monitors ->
    r_width d <= r_width (virtual_desktop_update d monitors) /\
    r_height d <= r_height (virtual_desktop_update d monitors).
Proof.
  induction monitors as [ | m rest IH ]; intros n d Hn Hlen Hd Hall.
  - cbn. lia.
  - inversion Hall as [ | ? ? Hm Hrest ]; subst.
    cbn [List.length] in Hlen. rewrite Nat2Z.inj_succ in Hlen.
    rewrite virtual_desktop_update_cons.
    destruct (active m) eqn:Eact.
    + destruct (size_compute_step n d (monitor_rect m)) as (Hd1 & _ & _);
        [ lia | exact Hd | exact (Hm Eact) | ].
      destruct (size_compute_grows n d (monitor_rect m) ltac:(lia) Hd (Hm Eact))
        as (Hw & _ & Hh & _).
      destruct (IH (n + 1) _ ltac:(lia) ltac:(lia) Hd1 Hrest) as (Hw' & Hh').
      lia.
    + apply (IH n d); try assumption; lia.
Qed.

(** X2. Whatever desktop the fold starts from, with at most 8 monitors in
    range: the rectangle it ends with is at least as wide and as high as
    every active monitor, and never smaller than the one it started from
    (what an earlier cycle left is kept even when monitors went away). *)
Theorem canvas_holds_each_size (desk : rectangle) (monitors : list monitor) :
  desk_start desk ->
  (List.length monitors <= Z.to_nat MONITOR_COUNT_MAX)%nat ->
  Forall monitor_in_range monitors ->
  Forall (fun m => active m = true ->
            info_width m <= r_width (virtual_desktop_update desk monitors) /\
            info_height m <= r_height (virtual_desktop_update desk monitors))
         monitors /\
  r_width desk <= r_width (virtual_desktop_update desk monitors) /\
  r_height desk <= r_height (virtual_desktop_update desk monitors).
Proof.
  intros Hstart Hlen Hall.
  change (Z.to_nat MONITOR_COUNT_MAX) with 8%nat in Hlen.
  split.
  - apply (update_keeps
             (fun m d => info_width m <= r_width d /\ info_height m <= r_height d));
      try assumption.
    + intros n d a m Hn Hbd Hba (Hw & Hh).
      destruct (size_compute_grows n d a (proj2 Hn) Hbd Hba) as (? & _ & ? & _).
      lia.
    + intros n d m Hn Hbd Hbm.
      destruct (size_compute_grows n d _ (proj2 Hn) Hbd Hbm) as (_ & ? & _ & ?).
      cbn [monitor_rect r_width r_height] in *. lia.
    + intros m _. cbn. lia.
  - destruct Hstart as [-> | Hd].
    + destruct (existsb active monitors) eqn:Eany.
      * apply existsb_exists in Eany. destruct Eany as (m & Hin & Hact).
        assert (Hex : Exists (fun m => active m = true) monitors)
          by (apply Exists_exists; eauto).
        destruct (virtual_desktop_update_from_init monitors ltac:(lia) Hall)
          as (Hb & _).
        destruct (Hb Hex) as (_ & _ & Hw & Hh). cbn. lia.
      * rewrite virtual_desktop_update_none_active; [ cbn; lia | ].
        apply Forall_forall. intros m Hin.
        destruct (active m) eqn:Eact; [ | reflexivity ].
        assert (Habs : existsb active monitors = true)
          by (apply existsb_exists; eauto).
        congruence.
    + apply (update_grows_bounded monitors 1 desk); try assumption; lia.
Qed.

Lemma canvas_holds_each_size_witness :
  Forall (fun m => active m = true ->
            info_width m
            <= r_width (virtual_desktop_update virtual_desktop_init
                          side_by_side_monitors) /\
            info_height m
            <= r_height (virtual_desktop_update virtual_desktop_init
                           side_by_side_monitors))
         side_by_side_monitors /\
  r_width virtual_desktop_init
  <= r_width (virtual_desktop_update virtual_desktop_init side_by_side_monitors) /\
  r_height virtual_desktop_init
  <= r_height (virtual_desktop_update virtual_desktop_init side_by_side_monitors).
Proof.
  apply (canvas_holds_each_size virtual_desktop_init side_by_side_monitors).
  - left. reflexivity.
  - vm_compute. lia.
  - repeat (apply Forall_cons;
            [ unfold monitor_in_range, desk_bounded; cbn;
              intros Hact; first [ discriminate Hact | lia ] | ]).
    apply Forall_nil.
Defined.

(** From a desktop that holds something, the final origin is the one it
    had or that of an active monitor. *)
Lemma update_origin_bounded (monitors : list monitor) :
  forall (n : Z) (d : rectangle),
    1 <= n -> n + Z.of_nat (List.length monitors) <= 9 ->
    desk_bounded n d -> Forall monitor_in_range monitors ->
    (r_x (virtual_desktop_update d monitors) = r_x d \/
     Exists (fun m => active m = true /\
                      info_x m = r_x (virtual_desktop_update d monitors))
            monitors) /\
    (r_y (virtual_desktop_update d monitors) = r_y d \/
     Exists (fun m => active m = true /\
                      info_y m = r_y (virtual_desktop_update d monitors))
            monitors).
Proof.
  induction monitors as [ | m rest IH ]; intros n d Hn Hlen Hd Hall.
  - split; left; reflexivity.
  - inversion Hall as [ | ? ? Hm Hrest ]; subst.
    cbn [List.length] in Hlen. rewrite Nat2Z.inj_succ in Hlen.
    rewrite virtual_desktop_update_cons.
    destruct (active m) eqn:Eact.
    + destruct (size_compute_step n d (monitor_rect m)) as (Hd1 & Ex & Ey);
        [ lia | exact Hd | exact (Hm Eact) | ].
      cbn [monitor_rect r_x r_y] in Ex, Ey.
      destruct (IH (n + 1) _ ltac:(lia) ltac:(lia) Hd1 Hrest) as (Hx & Hy).
      split.
      * destruct Hx as [Hx | Hx]; [ | right; apply Exists_cons_tl; exact Hx ].
        destruct (Z.min_spec (r_x d) (info_x m)) as [(_ & E) | (_ & E)].
        -- left. lia.
        -- right. apply Exists_cons_hd. split; [ exact Eact | lia ].
      * destruct Hy as [Hy | Hy]; [ | right; apply Exists_cons_tl; exact Hy ].
        destruct (Z.min_spec (r_y d) (info_y m)) as [(_ & E) | (_ & E)].
        -- left. lia.
        -- right. apply Exists_cons_hd. split; [ exact Eact | lia ].
    + destruct (IH n d Hn ltac:(lia) Hd Hrest) as (Hx & Hy).
      split.
      * destruct Hx as [Hx | Hx]; [ left; exact Hx | right ].
        apply Exists_cons_tl; exact Hx.
      * destruct Hy as [Hy | Hy]; [ left; exact Hy | right ].
        apply Exists_cons_tl; exact Hy.
Qed.

(** From the zero-filled desktop the final origin is that of an active
    monitor on each axis. *)
Lemma update_origin_from_init (monitors : list monitor) :
  Z.of_nat (List.length monitors) <= 8 ->
  Forall monitor_in_range monitors ->
  Exists (fun m => active m = true) monitors ->
  Exists (fun m => active m = true /\
                   info_x m
                   = r_x (virtual_desktop_update virtual_desktop_init monitors))
         monitors /\
  Exists (fun m => active m = true /\
                   info_y m
                   = r_y (virtual_desktop_update virtual_desktop_init monitors))
         monitors.
Proof.
  induction monitors as [ | m rest IH ]; intros Hlen Hall Hex.
  - inversion Hex.
  - inversion Hall as [ | ? ? Hm Hrest ]; subst.
    cbn [List.length] in Hlen. rewrite Nat2Z.inj_succ in Hlen.
    rewrite virtual_desktop_update_cons.
    destruct (active m) eqn:Eact.
    + change (virtual_desktop_size_compute virtual_desktop_init (monitor_rect m))
        with (monitor_rect m).
      destruct (update_origin_bounded rest 1 (monitor_rect m)
                  ltac:(lia) ltac:(lia) (Hm Eact) Hrest) as (Hx & Hy).
      cbn [monitor_rect r_x r_y] in Hx, Hy.
      split.
      * destruct Hx as [Hx | Hx];
          [ apply Exists_cons_hd; split; [ exact Eact | lia ]
          | apply Exists_cons_tl; exact Hx ].
      * destruct Hy as [Hy | Hy];
          [ apply Exists_cons_hd; split; [ exact Eact | lia ]
          | apply Exists_cons_tl; exact Hy ].
    + assert (Hex' : Exists (fun m => active m = true) rest)
        by (inversion Hex; subst; [ congruence | assumption ]).
      destruct (IH ltac:(lia) Hrest Hex') as (Hx & Hy).
      split; apply Exists_cons_tl; assumption.
Qed.

(** X3. The first cycle (zero-filled desktop), at most 8 monitors in range,
    one of them active: the rebasing succeeds, the canvas origin is (0,0),
    every active monitor is moved by the same offset (its canvas position is
    its position less the desktop's origin), and the offset is tight: an
    active monitor sits at canvas x = 0 and one at canvas y = 0. *)
Theorem rebasing_is_a_tight_translation (monitors : list monitor) :
  (List.length monitors <= Z.to_nat MONITOR_COUNT_MAX)%nat ->
  Forall monitor_in_range monitors ->
  Exists (fun m => active m = true) monitors ->
  exists canvas monitors',
    virtual_desktop_position_reposition
      (virtual_desktop_update virtual_desktop_init monitors) monitors
    = (OK, canvas, monitors') /\
    r_x canvas = 0 /\ r_y canvas = 0 /\
    Forall (fun m =>
              active m = true ->
              virt_pos_x m
              = info_x m
                - r_x (virtual_desktop_update virtual_desktop_init monitors) /\
              virt_pos_y m
              = info_y m
                - r_y (virtual_desktop_update virtual_desktop_init monitors))
           monitors' /\
    Exists (fun m => active m = true /\ virt_pos_x m = 0) monitors' /\
    Exists (fun m => active m = true /\ virt_pos_y m = 0) monitors'.
Proof.
  intros Hlen Hall Hex.
  change (Z.to_nat MONITOR_COUNT_MAX) with 8%nat in Hlen.
  destruct (virtual_desktop_update_covers virtual_desktop_init monitors
              (or_introl eq_refl) Hlen Hall Hex)
    as ((Hx & Hy & Hw & Hh) & Hin).
  destruct (update_origin_from_init monitors ltac:(lia) Hall Hex) as (Ax & Ay).
  set (d := virtual_desktop_update virtual_desktop_init monitors) in *.
  assert (Hpos : forall m, In m monitors -> active m = true ->
                   to_int32 (info_x m - r_x d) = info_x m - r_x d /\
                   to_int32 (info_y m - r_y d) = info_y m - r_y d).
  { intros m Hm Hact. rewrite Forall_forall in Hin, Hall.
    destruct (Hin m Hm Hact) as (Lx & Ly).
    destruct (Hall m Hm Hact) as (Mx & My & _ & _).
    cbn [monitor_rect r_x r_y] in Mx, My.
    rewrite !to_int32_small by lia. split; reflexivity. }
  unfold virtual_desktop_position_reposition.
  replace ((r_height d =? 0) || (r_width d =? 0)) with false
    by (symmetry; apply orb_false_iff; split; apply Z.eqb_neq; lia).
  eexists; eexists. split; [ reflexivity | ].
  split; [ reflexivity | ]. split; [ reflexivity | ].
  split; [ | split ].
  - apply Forall_map. apply Forall_forall. intros m Hm.
    destruct (active m) eqn:Eact; [ | intros Habs; congruence ].
    intros _. cbn [set_virt_pos virt_pos_x virt_pos_y info_x info_y].
    exact (Hpos m Hm Eact).
  - apply Exists_exists in Ax. destruct Ax as (m & Hm & Hact & Hmx).
    apply Exists_exists.
    exists (set_virt_pos m (to_int32 (info_x m - r_x d))
                           (to_int32 (info_y m - r_y d))).
    split.
    + apply in_map_iff. exists m. rewrite Hact. auto.
    + cbn [set_virt_pos active virt_pos_x]. split; [ exact Hact | ].
      rewrite (proj1 (Hpos m Hm Hact)). lia.
  - apply Exists_exists in Ay. destruct Ay as (m & Hm & Hact & Hmy).
    apply Exists_exists.
    exists (set_virt_pos m (to_int32 (info_x m - r_x d))
                           (to_int32 (info_y m - r_y d))).
    split.
    + apply in_map_iff. exists m. rewrite Hact. auto.
    + cbn [set_virt_pos active virt_pos_y]. split; [ exact Hact | ].
      rewrite (proj2 (Hpos m Hm Hact)). lia.
Qed.

Lemma rebasing_is_a_tight_translation_witness :
  exists canvas monitors',
    virtual_desktop_position_reposition
      (virtual_desktop_update virtual_desktop_init left_of_primary_monitors)
      left_of_primary_monitors
    = (OK, canvas, monitors') /\
    r_x canvas = 0 /\ r_y canvas = 0 /\
    Forall (fun m =>
              active m = true ->
              virt_pos_x m
              = info_x m
                - r_x (virtual_desktop_update virtual_desktop_init
                         left_of_primary_monitors) /\
              virt_pos_y m
              = info_y m
                - r_y (virtual_desktop_update virtual_desktop_init
                         left_of_primary_monitors))
           monitors' /\
    Exists (fun m => active m = true /\ virt_pos_x m = 0) monitors' /\
    Exists (fun m => active m = true /\ virt_pos_y m = 0) monitors'.
Proof.
  apply (rebasing_is_a_tight_translation left_of_primary_monitors).
  - vm_compute. lia.
  - repeat (apply Forall_cons;
            [ unfold monitor_in_range, desk_bounded; cbn;
              intros Hact; first [ discriminate Hact | lia ] | ]).
    apply Forall_nil.
  - apply Exists_cons_hd. reflexivity.
Defined.

(** A union with a rectangle that touches or overlaps is the bounding box:
    what was inside stays inside, and the added monitor is inside. *)
Lemma size_compute_meets (n : Z) (d : rectangle) (m : monitor) :
  1 <= n <= 8 -> desk_bounded n d -> desk_bounded 1 (monitor_rect m) ->
  meets d (monitor_rect m) ->
  inside m (virtual_desktop_size_compute d (monitor_rect m)) /\
  forall m0, inside m0 d ->
             inside m0 (virtual_desktop_size_compute d (monitor_rect m)).
Proof.
  intros Hn Hd Hm (Gx & Gy).
  pose proof (desk_bounded_in_range n d (proj2 Hn) Hd) as Rd.
  pose proof (desk_bounded_in_range 1 _ ltac:(lia) Hm) as Ra.
  destruct (size_compute_span d _ Rd Ra (desk_bounded_not_empty n d Hd))
    as (Ex & Ey & Ew & Eh).
  rewrite Gx in Ew. rewrite Gy in Eh.
  cbn [monitor_rect r_x r_y r_width r_height] in Ex, Ey, Ew, Eh.
  unfold inside. rewrite Ex, Ey, Ew, Eh.
  destruct Hd as (? & ? & ? & ?), Hm as (? & ? & Hmw & Hmh).
  cbn [monitor_rect r_x r_y r_width r_height] in *.
  split; [ lia | intros m0 (? & ? & ? & ?); lia ].
Qed.

Lemma chained_inside_bounded (monitors : list monitor) :
  forall (n : Z) (d : rectangle),
    1 <= n -> n + Z.of_nat (List.length monitors) <= 9 ->
    desk_bounded n d -> Forall monitor_in_range monitors ->
    chained d monitors ->
    (forall m0, inside m0 d -> inside m0 (virtual_desktop_update d monitors)) /\
    Forall (fun m => active m = true ->
                     inside m (virtual_desktop_update d monitors))
           monitors.
Proof.
  induction monitors as [ | m rest IH ]; intros n d Hn Hlen Hd Hall Hch.
  - split; [ auto | constructor ].
  - inversion Hall as [ | ? ? Hm Hrest ]; subst.
    cbn [List.length] in Hlen. rewrite Nat2Z.inj_succ in Hlen.
    rewrite virtual_desktop_update_cons. cbn [chained] in Hch.
    destruct (active m) eqn:Eact.
    + destruct Hch as ([Hempty | Hmeets] & Hch);
        [ exfalso; exact (desk_bounded_not_empty n d Hd Hempty) | ].
      destruct (size_compute_step n d (monitor_rect m)) as (Hd1 & _ & _);
        [ lia | exact Hd | exact (Hm Eact) | ].
      destruct (size_compute_meets n d m ltac:(lia) Hd (Hm Eact) Hmeets)
        as (Hnew & Hold).
      destruct (IH (n + 1) _ ltac:(lia) ltac:(lia) Hd1 Hrest Hch)
        as (Hkeep & Hin).
      split; [ intros m0 Hm0; apply Hkeep, Hold, Hm0 | ].
      constructor; [ intros _; apply Hkeep, Hnew | exact Hin ].
    + destruct (IH n d Hn ltac:(lia) Hd Hrest Hch) as (Hkeep & Hin).
      split; [ exact Hkeep | ].
      constructor; [ intros Habs; congruence | exact Hin ].
Qed.

Lemma chained_inside_from_init (monitors : list monitor) :
  Z.of_nat (List.length monitors) <= 8 ->
  Forall monitor_in_range monitors ->
  chained virtual_desktop_init monitors ->
  Forall (fun m => active m = true ->
                   inside m (virtual_desktop_update virtual_desktop_init monitors))
         monitors.
Proof.
  induction monitors as [ | m rest IH ]; intros Hlen Hall Hch.
  - constructor.
  - inversion Hall as [ | ? ? Hm Hrest ]; subst.
    cbn [List.length] in Hlen. rewrite Nat2Z.inj_succ in Hlen.
    rewrite virtual_desktop_update_cons. cbn [chained] in Hch.
    destruct (active m) eqn:Eact.
    + destruct Hch as (_ & Hch).
      change (virtual_desktop_size_compute virtual_desktop_init (monitor_rect m))
        with (monitor_rect m) in *.
      destruct (chained_inside_bounded rest 1 (monitor_rect m)
                  ltac:(lia) ltac:(lia) (Hm Eact) Hrest Hch) as (Hkeep & Hin).
      constructor; [ | exact Hin ].
      intros _. apply Hkeep. unfold inside. cbn. lia.
    + constructor; [ intros Habs; congruence | ].
      apply IH; [ lia | exact Hrest | exact Hch ].
Qed.

(** X4. When every active monitor, at its turn, touches or overlaps the
    rectangle built from those before it (at most 8 monitors in range, from
    the zero-filled desktop or one left by an earlier cycle), the rebasing
    puts each active monitor wholly on the canvas: its position is not
    negative and position plus size does not exceed the canvas size, on both
    axes. *)
Theorem chained_monitors_fit_canvas (desk : rectangle) (monitors : list monitor) :
  desk_start desk ->
  (List.length monitors <= Z.to_nat MONITOR_COUNT_MAX)%nat ->
  Forall monitor_in_range monitors ->
  Exists (fun m => active m = true) monitors ->
  chained desk monitors ->
  exists canvas monitors',
    virtual_desktop_position_reposition
      (virtual_desktop_update desk monitors) monitors
    = (OK, canvas, monitors') /\
    Forall (fun m =>
              active m = true ->
              0 <= virt_pos_x m /\
              virt_pos_x m + info_width m <= r_width canvas /\
              0 <= virt_pos_y m /\
              virt_pos_y m + info_height m <= r_height canvas)
           monitors'.
Proof.
  intros Hstart Hlen Hall Hex Hch.
  change (Z.to_nat MONITOR_COUNT_MAX) with 8%nat in Hlen.
  destruct (virtual_desktop_update_covers desk monitors Hstart Hlen Hall Hex)
    as ((Hx & Hy & Hw & Hh) & _).
  assert (Hin : Forall (fun m => active m = true ->
                          inside m (virtual_desktop_update desk monitors))
                       monitors).
  { destruct Hstart as [-> | Hd].
    - apply chained_inside_from_init; [ lia | exact Hall | exact Hch ].
    - apply (chained_inside_bounded monitors 1 desk); try assumption; lia. }
  set (d := virtual_desktop_update desk monitors) in *.
  unfold virtual_desktop_position_reposition.
  replace ((r_height d =? 0) || (r_width d =? 0)) with false
    by (symmetry; apply orb_false_iff; split; apply Z.eqb_neq; lia).
  eexists; eexists. split; [ reflexivity | ].
  apply Forall_map. rewrite Forall_forall in *. intros m Hm.
  destruct (active m) eqn:Eact; [ | intros Habs; congruence ].
  intros _. destruct (Hin m Hm Eact) as (Lx & Ux & Ly & Uy).
  destruct (Hall m Hm Eact) as (Mx & My & _ & _).
  cbn [monitor_rect r_x r_y r_width r_height set_virt_pos
       virt_pos_x virt_pos_y info_width info_height] in *.
  rewrite !to_int32_small by lia. lia.
Qed.

Lemma chained_monitors_fit_canvas_witness :
  exists canvas monitors',
    virtual_desktop_position_reposition
      (virtual_desktop_update virtual_desktop_init side_by_side_monitors)
      side_by_side_monitors
    = (OK, canvas, monitors') /\
    Forall (fun m =>
              active m = true ->
              0 <= virt_pos_x m /\
              virt_pos_x m + info_width m <= r_width canvas /\
              0 <= virt_pos_y m /\
              virt_pos_y m + info_height m <= r_height canvas)
           monitors'.
Proof.
  apply (chained_monitors_fit_canvas virtual_desktop_init side_by_side_monitors).
  - left. reflexivity.
  - vm_compute. lia.
  - repeat (apply Forall_cons;
            [ unfold monitor_in_range, desk_bounded; cbn;
              intros Hact; first [ discriminate Hact | lia ] | ]).
    apply Forall_nil.
  - apply Exists_cons_hd. reflexivity.
  - cbn. split; [ left; split; reflexivity | ].
    split; [ | exact I ].
    right. split; vm_compute; reflexivity.
Defined.

(** * The enumeration of the displays *)

Lemma array_set_length (monitors : list monitor) (idx : nat) (m : monitor) :
  List.length (array_set monitors idx m) = List.length monitors.
Proof.
  revert idx. induction monitors as [ | m0 rest IH ]; intros [ | idx ]; cbn;
    try reflexivity.
  now rewrite IH.
Qed.

Lemma array_set_nth (monitors : list monitor) (idx : nat) (m : monitor) (j : nat) :
  nth_error (array_set monitors idx m) j
  = if Nat.eqb j idx
    then match nth_error monitors idx with Some _ => Some m | None => None end
    else nth_error monitors j.
Proof.
  revert idx j. induction monitors as [ | m0 rest IH ]; intros idx j.
  - cbn. destruct (Nat.eqb j idx), idx, j; reflexivity.
  - destruct idx as [ | idx ], j as [ | j ]; cbn; try reflexivity.
    apply IH.
Qed.

Lemma display_info_update_from_cons
  (i : Z) (dev : DISPLAY_DEVICE) (rest : list DISPLAY_DEVICE)
  (monitors : list monitor) :
  display_info_update_from i (dev :: rest) monitors
  = display_info_update_from (i + 1) rest (display_step i dev monitors).
Proof. reflexivity. Qed.

Lemma display_step_length (i : Z) (dev : DISPLAY_DEVICE) (monitors : list monitor) :
  List.length (display_step i dev monitors) = List.length monitors.
Proof.
  unfold display_step, __display_info_update.
  destruct (DISPLAY_DEVICE_ACTIVE dev), (DISPLAY_DEVICE_MIRRORING_DRIVER dev),
    (current_settings dev), (MONITOR_COUNT_MAX <=? i),
    (nth_error monitors (Z.to_nat i));
    cbn; rewrite ?array_set_length; reflexivity.
Qed.

(** One pass only touches the entry of its index, and only below
    [MONITOR_COUNT_MAX]. *)
Lemma display_step_nth (i : Z) (dev : DISPLAY_DEVICE) (monitors : list monitor)
  (j : nat) :
  0 <= i ->
  nth_error (display_step i dev monitors) j
  = if Nat.eqb j (Z.to_nat i) && (i <? MONITOR_COUNT_MAX)
    then option_map (display_entry dev) (nth_error monitors j)
    else nth_error monitors j.
Proof.
  intros Hi.
  unfold display_step, display_entry, display_idle, __display_info_update.
  destruct (Z.leb_spec MONITOR_COUNT_MAX i) as [Hbig | Hsmall].
  - replace (i <? MONITOR_COUNT_MAX) with false by (symmetry; apply Z.ltb_ge; lia).
    rewrite andb_false_r.
    destruct (DISPLAY_DEVICE_ACTIVE dev), (DISPLAY_DEVICE_MIRRORING_DRIVER dev),
      (current_settings dev); reflexivity.
  - replace (i <? MONITOR_COUNT_MAX) with true by (symmetry; apply Z.ltb_lt; lia).
    rewrite andb_true_r.
    destruct (Nat.eqb_spec j (Z.to_nat i)) as [-> | Hne].
    + destruct (nth_error monitors (Z.to_nat i)) as [ m | ] eqn:Em;
        destruct (DISPLAY_DEVICE_ACTIVE dev),
          (DISPLAY_DEVICE_MIRRORING_DRIVER dev),
          (current_settings dev);
        cbn; rewrite ?array_set_nth, ?Nat.eqb_refl, ?Em; reflexivity.
    + destruct (nth_error monitors (Z.to_nat i)) as [ m | ] eqn:Em;
        destruct (DISPLAY_DEVICE_ACTIVE dev),
          (DISPLAY_DEVICE_MIRRORING_DRIVER dev),
          (current_settings dev);
        cbn; rewrite ?array_set_nth;
        try (apply Nat.eqb_neq in Hne; rewrite Hne); reflexivity.
Qed.

(** The loop treats each entry on its own: entry [j] is what the pass for
    display [j] makes of it, when there is such a display and [j] is below
    [MONITOR_COUNT_MAX], and is left alone otherwise. *)
Lemma display_info_update_from_nth (devices : list DISPLAY_DEVICE) :
  forall (k : nat) (monitors : list monitor) (j : nat),
    nth_error (display_info_update_from (Z.of_nat k) devices monitors) j
    = match (if (k <=? j)%nat then nth_error devices (j - k) else None) with
      | Some dev =>
          if Z.of_nat j <? MONITOR_COUNT_MAX
          then option_map (display_entry dev) (nth_error monitors j)
          else nth_error monitors j
      | None => nth_error monitors j
      end.
Proof.
  induction devices as [ | dev rest IH ]; intros k monitors j.
  - cbn. destruct (k <=? j)%nat; [ | reflexivity ].
    destruct (j - k)%nat; reflexivity.
  - rewrite display_info_update_from_cons.
    replace (Z.of_nat k + 1) with (Z.of_nat (S k)) by lia.
    rewrite IH. rewrite !display_step_nth by lia. rewrite Nat2Z.id.
    destruct (Nat.leb_spec (S k) j) as [Hlt | Hge].
    + replace (k <=? j)%nat with true by (symmetry; apply Nat.leb_le; lia).
      replace (j - k)%nat with (S (j - S k)) by lia. cbn [nth_error].
      replace (Nat.eqb j k) with false by (symmetry; apply Nat.eqb_neq; lia).
      reflexivity.
    + destruct (Nat.eqb_spec j k) as [-> | Hne].
      * rewrite Nat.leb_refl, Nat.sub_diag. cbn [nth_error andb].
        destruct (Z.of_nat k <? MONITOR_COUNT_MAX); reflexivity.
      * replace (k <=? j)%nat with false by (symmetry; apply Nat.leb_gt; lia).
        reflexivity.
Qed.

Lemma display_info_update_nth (devices : list DISPLAY_DEVICE)
  (monitors : list monitor) (j : nat) :
  nth_error (display_info_update devices monitors) j
  = match nth_error devices j with
    | Some dev =>
        if Z.of_nat j <? MONITOR_COUNT_MAX
        then option_map (display_entry dev) (nth_error monitors j)
        else nth_error monitors j
    | None => nth_error monitors j
    end.
Proof.
  unfold display_info_update.
  change 0 with (Z.of_nat 0). rewrite display_info_update_from_nth.
  cbn [Nat.leb]. now rewrite Nat.sub_0_r.
Qed.

Lemma display_info_update_from_length (devices : list DISPLAY_DEVICE) :
  forall (i : Z) (monitors : list monitor),
    List.length (display_info_update_from i devices monitors)
    = List.length monitors.
Proof.
  induction devices as [ | dev rest IH ]; intros i monitors; [ reflexivity | ].
  rewrite display_info_update_from_cons, IH. apply display_step_length.
Qed.

Lemma orientation_mapped (dmdo : Z) :
  0 <= dmdo ->
  (if dmdo <? Z.of_nat (List.length dmdo_to_orien)
   then nth (Z.to_nat dmdo) dmdo_to_orien ORIENT_UNKNOWN
   else ORIENT_UNKNOWN)
  = orientation_of dmdo.
Proof.
  intros Hpos. unfold orientation_of. cbn [dmdo_to_orien List.length Z.of_nat].
  change (Z.pos (Pos.of_succ_nat 3)) with 4.
  destruct (Z.ltb_spec dmdo 4) as [Hlt | Hge]; [ | reflexivity ].
  assert (E : dmdo = 0 \/ dmdo = 1 \/ dmdo = 2 \/ dmdo = 3) by lia.
  destruct E as [-> | [-> | [-> | ->]]]; reflexivity.
Qed.

(** X5. The enumeration leaves an entry of the array exactly as the cycle
    before left it when no display is reported at its index, when its index
    is not below [MONITOR_COUNT_MAX], or when the display at its index is
    active but its settings cannot be read: a monitor that was active stays
    active with its old geometry. *)
Theorem enumeration_leaves_entry
  (devices : list DISPLAY_DEVICE) (monitors : list monitor) (j : nat) :
  (List.length devices <= j)%nat \/
  MONITOR_COUNT_MAX <= Z.of_nat j \/
  (exists dev, nth_error devices j = Some dev /\ display_unreadable dev) ->
  nth_error (display_info_update devices monitors) j = nth_error monitors j.
Proof.
  intros Hcase. rewrite display_info_update_nth.
  destruct Hcase as [Hpast | [Hbig | (dev & Hdev & Hidle & Hnone)]].
  - apply nth_error_None in Hpast. now rewrite Hpast.
  - replace (Z.of_nat j <? MONITOR_COUNT_MAX) with false
      by (symmetry; apply Z.ltb_ge; lia).
    destruct (nth_error devices j); reflexivity.
  - rewrite Hdev. unfold display_entry. rewrite Hidle, Hnone.
    destruct (Z.of_nat j <? MONITOR_COUNT_MAX); [ | reflexivity ].
    destruct (nth_error monitors j); reflexivity.
Qed.

Lemma enumeration_leaves_entry_witness :
  nth_error (display_info_update mixed_displays left_of_primary_monitors) 2
  = nth_error left_of_primary_monitors 2 /\
  nth_error (display_info_update mixed_displays left_of_primary_monitors) 5
  = nth_error left_of_primary_monitors 5.
Proof.
  split.
  - apply (enumeration_leaves_entry mixed_displays left_of_primary_monitors 2).
    right; right. eexists. split; [ reflexivity | ]. split; reflexivity.
  - apply (enumeration_leaves_entry mixed_displays left_of_primary_monitors 5).
    left. cbn. lia.
Defined.

(** X6. The enumeration keeps the array's length and, in every entry, the
    wallpaper settings loaded from the configuration and the canvas position
    of the cycle before. *)
Theorem enumeration_keeps_configuration
  (devices : list DISPLAY_DEVICE) (monitors : list monitor) :
  List.length (display_info_update devices monitors) = List.length monitors /\
  forall j m',
    nth_error (display_info_update devices monitors) j = Some m' ->
    exists m,
      nth_error monitors j = Some m /\
      wp_auto_rotate m' = wp_auto_rotate m /\
      wp_style m' = wp_style m /\
      wp_bg_color m' = wp_bg_color m /\
      wp_files m' = wp_files m /\
      virt_pos_x m' = virt_pos_x m /\
      virt_pos_y m' = virt_pos_y m.
Proof.
  split; [ apply display_info_update_from_length | ].
  intros j m'. rewrite display_info_update_nth.
  assert (Hentry : forall dev m,
             wp_auto_rotate (display_entry dev m) = wp_auto_rotate m /\
             wp_style (display_entry dev m) = wp_style m /\
             wp_bg_color (display_entry dev m) = wp_bg_color m /\
             wp_files (display_entry dev m) = wp_files m /\
             virt_pos_x (display_entry dev m) = virt_pos_x m /\
             virt_pos_y (display_entry dev m) = virt_pos_y m).
  { intros dev m. unfold display_entry.
    destruct (display_idle dev), (current_settings dev); cbn; auto 10. }
  destruct (nth_error monitors j) as [ m | ] eqn:Em.
  - intros H. exists m. split; [ reflexivity | ].
    destruct (nth_error devices j) as [ dev | ];
      [ destruct (Z.of_nat j <? MONITOR_COUNT_MAX) | ];
      cbn in H; inversion H; subst; try apply Hentry; auto 10.
  - intros H.
    destruct (nth_error devices j) as [ dev | ];
      [ destruct (Z.of_nat j <? MONITOR_COUNT_MAX) | ];
      cbn in H; discriminate.
Qed.

(** X7. A display that is not active, or that is a mirroring driver, leaves
    its entry inactive with every field of [info] zero, whatever the entry
    held. *)
Theorem idle_display_clears_entry
  (devices : list DISPLAY_DEVICE) (monitors : list monitor)
  (j : nat) (dev : DISPLAY_DEVICE) (m : monitor) :
  Z.of_nat j < MONITOR_COUNT_MAX ->
  nth_error devices j = Some dev ->
  display_idle dev = true ->
  nth_error monitors j = Some m ->
  exists m',
    nth_error (display_info_update devices monitors) j = Some m' /\
    active m' = false /\
    info_x m' = 0 /\ info_y m' = 0 /\ info_width m' = 0 /\ info_height m' = 0 /\
    info_orientation m' = 0 /\ info_is_primary m' = false.
Proof.
  intros Hj Hdev Hidle Hm. rewrite display_info_update_nth, Hdev, Hm.
  replace (Z.of_nat j <? MONITOR_COUNT_MAX) with true
    by (symmetry; apply Z.ltb_lt; lia).
  unfold display_entry. rewrite Hidle. cbn.
  eexists. split; [ reflexivity | ]. cbn. auto 10.
Qed.

Lemma idle_display_clears_entry_witness :
  exists m',
    nth_error (display_info_update mixed_displays left_of_primary_monitors) 1
    = Some m' /\
    active m' = false /\
    info_x m' = 0 /\ info_y m' = 0 /\ info_width m' = 0 /\ info_height m' = 0 /\
    info_orientation m' = 0 /\ info_is_primary m' = false.
Proof.
  eapply (idle_display_clears_entry mixed_displays left_of_primary_monitors 1);
    reflexivity.
Defined.

(** X8. An active display that is no mirroring driver and whose settings
    can be read fills its entry: the entry is active, holds the position and
    the size reported, its orientation is the reported one when that is
    below 4 and [ORIENT_UNKNOWN] otherwise, and it is marked primary exactly
    when it sits at (0,0). *)
Theorem readable_display_fills_entry
  (devices : list DISPLAY_DEVICE) (monitors : list monitor)
  (j : nat) (dev : DISPLAY_DEVICE) (mode : DEVMODE) (m : monitor) :
  Z.of_nat j < MONITOR_COUNT_MAX ->
  nth_error devices j = Some dev ->
  display_idle dev = false ->
  current_settings dev = Some mode ->
  0 <= dmDisplayOrientation mode ->
  nth_error monitors j = Some m ->
  exists m',
    nth_error (display_info_update devices monitors) j = Some m' /\
    active m' = true /\
    info_x m' = dmPosition_x mode /\ info_y m' = dmPosition_y mode /\
    info_width m' = dmPelsWidth mode /\ info_height m' = dmPelsHeight mode /\
    info_orientation m' = orientation_of (dmDisplayOrientation mode) /\
    (0 <= info_orientation m' < NUM_MONITOR_ORIENTS \/
     info_orientation m' = ORIENT_UNKNOWN) /\
    (info_is_primary m' = true <-> info_x m' = 0 /\ info_y m' = 0).
Proof.
  intros Hj Hdev Hidle Hmode Hdm Hm.
  rewrite display_info_update_nth, Hdev, Hm.
  replace (Z.of_nat j <? MONITOR_COUNT_MAX) with true
    by (symmetry; apply Z.ltb_lt; lia).
  unfold display_entry. rewrite Hidle, Hmode, (orientation_mapped _ Hdm).
  cbn [option_map]. eexists. split; [ reflexivity | ].
  cbn [set_info active info_x info_y info_width info_height
       info_orientation info_is_primary].
  repeat (split; [ reflexivity | ]).
  split.
  - unfold orientation_of, NUM_MONITOR_ORIENTS.
    destruct (Z.ltb_spec (dmDisplayOrientation mode) 4); [ left; lia | right ].
    reflexivity.
  - rewrite andb_true_iff, !Z.eqb_eq. tauto.
Qed.

Lemma readable_display_fills_entry_witness :
  exists m',
    nth_error (display_info_update mixed_displays left_of_primary_monitors) 0
    = Some m' /\
    active m' = true /\
    info_x m' = -1280 /\ info_y m' = 0 /\
    info_width m' = 1280 /\ info_height m' = 1024 /\
    info_orientation m' = orientation_of 1 /\
    (0 <= info_orientation m' < NUM_MONITOR_ORIENTS \/
     info_orientation m' = ORIENT_UNKNOWN) /\
    (info_is_primary m' = true <-> info_x m' = 0 /\ info_y m' = 0).
Proof.
  eapply (readable_display_fills_entry
            mixed_displays left_of_primary_monitors 0
            (display_at (-1280) 0 1280 1024 1)
            {| dmPosition_x := -1280; dmPosition_y := 0;
               dmPelsWidth := 1280; dmPelsHeight := 1024;
               dmDisplayOrientation := 1 |});
    first [ reflexivity | cbn; lia ].
Defined.

(** * The choice of a source *)

(** The scan returns [-1] on a table without entry, and otherwise the
    index of the first entry set. *)
Lemma first_file_spec (files : list (option string)) :
  forall i, 0 <= i ->
    (first_file files i = -1 /\ Forall (fun path => path = None) files) \/
    (exists (k : nat) (p : string),
        first_file files i = i + Z.of_nat k /\
        nth_error files k = Some (Some p) /\
        forall k', (k' < k)%nat -> nth_error files k' = Some None).
Proof.
  induction files as [ | [ p | ] rest IH ]; intros i Hi; cbn [first_file].
  - left. split; [ reflexivity | constructor ].
  - right. exists 0%nat, p. split; [ cbn; lia | ].
    split; [ reflexivity | intros k' Hk'; lia ].
  - destruct (IH (i + 1) ltac:(lia)) as [(Hnone & Hall) | (k & p & Hk & Hp & Hbelow)].
    + left. split; [ exact Hnone | constructor; [ reflexivity | exact Hall ] ].
    + right. exists (S k), p. split; [ lia | ].
      split; [ exact Hp | ].
      intros [ | k' ] Hk'; [ reflexivity | apply Hbelow; lia ].
Qed.

Lemma nth_of_nth_error (files : list (option string)) (k : nat)
  (entry : option string) :
  nth_error files k = Some entry -> nth k files None = entry.
Proof.
  revert k. induction files as [ | f rest IH ]; intros [ | k ] H; cbn in *;
    try discriminate.
  - now inversion H.
  - now apply IH.
Qed.

Lemma nth_all_none (files : list (option string)) (k : nat) :
  Forall (fun path => path = None) files -> nth k files None = None.
Proof.
  intros Hall. revert k.
  induction Hall as [ | f rest Hf _ IH ]; intros [ | k ]; cbn; auto.
Qed.

(** The flipped orientation as the code computes it, for any value of the
    orientation that fits its type. *)
Lemma flip_orient_range (orient : Z) :
  0 <= to_int32 (to_uint32 (orient * 90 + 180) mod 360 / 90) < NUM_MONITOR_ORIENTS.
Proof.
  unfold NUM_MONITOR_ORIENTS.
  pose proof (Z.mod_pos_bound (to_uint32 (orient * 90 + 180)) 360 ltac:(lia)) as Hm.
  assert (0 <= to_uint32 (orient * 90 + 180) mod 360 / 90 < 4).
  { split; [ apply Z.div_pos; lia | apply Z.div_lt_upper_bound; lia ]. }
  rewrite to_int32_small by lia. assumption.
Qed.

Lemma flip_orient_known (orient : Z) :
  0 <= orient < NUM_MONITOR_ORIENTS ->
  to_int32 (to_uint32 (orient * 90 + 180) mod 360 / 90) = flipped orient.
Proof.
  unfold NUM_MONITOR_ORIENTS. intros Ho.
  assert (E : orient = 0 \/ orient = 1 \/ orient = 2 \/ orient = 3) by lia.
  destruct E as [-> | [-> | [-> | ->]]]; reflexivity.
Qed.

(** What [wallpaper_auto_rotate] returns, [flip] being the index it looks
    at first. *)
Lemma wallpaper_auto_rotate_spec (m : monitor) :
  let flip := to_int32 (to_uint32 (info_orientation m * 90 + 180) mod 360 / 90) in
  (files_at m flip <> None /\ wallpaper_auto_rotate m = flip) \/
  (files_at m flip = None /\ wallpaper_auto_rotate m = -1 /\ no_file m) \/
  (files_at m flip = None /\
   0 <= wallpaper_auto_rotate m /\
   files_at m (wallpaper_auto_rotate m) <> None /\
   forall k, 0 <= k < wallpaper_auto_rotate m -> files_at m k = None).
Proof.
  intros flip. unfold wallpaper_auto_rotate. fold flip.
  pose proof (flip_orient_range (info_orientation m)) as Hflip. fold flip in Hflip.
  replace (NUM_MONITOR_ORIENTS <=? flip) with false
    by (symmetry; apply Z.leb_gt; lia).
  destruct (files_at m flip) as [ p | ] eqn:Eflip.
  - left. split; [ discriminate | reflexivity ].
  - right.
    destruct (first_file_spec (wp_files m) 0 ltac:(lia))
      as [(Hnone & Hall) | (k & p & Hk & Hp & Hbelow)].
    + left. auto.
    + right. rewrite Hk. cbn [Z.add]. split; [ reflexivity | ].
      split; [ lia | ]. unfold files_at. rewrite Nat2Z.id.
      split.
      * rewrite (nth_of_nth_error _ _ _ Hp). discriminate.
      * intros k' Hk'. apply nth_of_nth_error, Hbelow. lia.
Qed.

(** X9. Whenever a source is chosen it is an entry of the monitor's table:
    either the monitor's own entry, which is then not empty, with no
    rotation pending ([alter_orient = -1]); or, auto-rotate being on and the
    own entry [NULL] or empty, the entry at [alter_orient], which is not
    negative. *)
Theorem source_is_a_table_entry (m : monitor) (path : string) (alter_orient : Z) :
  wallpaper_source m = inr (path, alter_orient) ->
  (alter_orient = -1 /\ path <> EmptyString /\
   files_at m (info_orientation m) = Some path) \/
  (0 <= alter_orient /\ wp_auto_rotate m = true /\
   path_unset (files_at m (info_orientation m)) = true /\
   files_at m alter_orient = Some path).
Proof.
  unfold wallpaper_source.
  destruct (path_unset (files_at m (info_orientation m))) eqn:Eown.
  - destruct (wp_auto_rotate m) eqn:Eauto; cbn [negb]; [ | discriminate ].
    destruct (Z.ltb_spec (wallpaper_auto_rotate m) 0) as [Hneg | Hpos];
      [ discriminate | ].
    destruct (files_at m (wallpaper_auto_rotate m)) as [ p | ] eqn:Ealt;
      [ | discriminate ].
    intros H. inversion H; subst. right. auto.
  - destruct (files_at m (info_orientation m)) as [ p | ] eqn:Efile;
      [ | discriminate ].
    intros H. inversion H; subst. left.
    split; [ reflexivity | split; [ | reflexivity ] ].
    intros ->. cbn in Eown. discriminate.
Qed.

Lemma source_is_a_table_entry_witness :
  (0 <= 1 /\ wp_auto_rotate portraits_only = true /\
   path_unset (files_at portraits_only (info_orientation portraits_only)) = true /\
   files_at portraits_only 1 = Some "p90.bmp"%string).
Proof.
  destruct (source_is_a_table_entry portraits_only "p90.bmp" 1 eq_refl)
    as [(Habs & _) | H]; [ discriminate Habs | exact H ].
Defined.

(** X10. The order of preference of the fallback, for a known orientation:
    the entry of the flipped orientation when it is set; otherwise the entry
    set with the lowest index; and [-1] only when no entry is set. *)
Theorem auto_rotate_prefers_flipped_then_lowest (m : monitor) :
  0 <= info_orientation m < NUM_MONITOR_ORIENTS ->
  (files_at m (flipped (info_orientation m)) <> None /\
   wallpaper_auto_rotate m = flipped (info_orientation m)) \/
  (files_at m (flipped (info_orientation m)) = None /\
   wallpaper_auto_rotate m = -1 /\ no_file m) \/
  (files_at m (flipped (info_orientation m)) = None /\
   0 <= wallpaper_auto_rotate m /\
   files_at m (wallpaper_auto_rotate m) <> None /\
   forall k, 0 <= k < wallpaper_auto_rotate m -> files_at m k = None).
Proof.
  intros Ho. rewrite <- (flip_orient_known _ Ho).
  exact (wallpaper_auto_rotate_spec m).
Qed.

Lemma auto_rotate_prefers_flipped_then_lowest_witness :
  (files_at upside_down (flipped (info_orientation upside_down)) <> None /\
   wallpaper_auto_rotate upside_down
   = flipped (info_orientation upside_down)) \/
  (files_at upside_down (flipped (info_orientation upside_down)) = None /\
   wallpaper_auto_rotate upside_down = -1 /\ no_file upside_down) \/
  (files_at upside_down (flipped (info_orientation upside_down)) = None /\
   0 <= wallpaper_auto_rotate upside_down /\
   files_at upside_down (wallpaper_auto_rotate upside_down) <> None /\
   forall k, 0 <= k < wallpaper_auto_rotate upside_down ->
             files_at upside_down k = None).
Proof.
  apply (auto_rotate_prefers_flipped_then_lowest upside_down).
  change (0 <= 2 < 4). lia.
Defined.

Lemma no_file_at (m : monitor) (i : Z) : no_file m -> files_at m i = None.
Proof.
  intros Hall. unfold files_at. now apply nth_all_none.
Qed.

(** X11. A monitor has no source ([ENODATA], the only code the choice can
    fail with) exactly when its own entry is [NULL] or empty and either
    auto-rotate is off or no entry of the table is set. *)
Theorem no_source_iff (m : monitor) :
  (wallpaper_source m = inl ENODATA <->
   path_unset (files_at m (info_orientation m)) = true /\
   (wp_auto_rotate m = false \/ no_file m)) /\
  (forall code, wallpaper_source m = inl code -> code = ENODATA).
Proof.
  pose proof (wallpaper_auto_rotate_spec m) as Hspec. cbv zeta in Hspec.
  unfold wallpaper_source.
  destruct (path_unset (files_at m (info_orientation m))) eqn:Eown.
  - destruct (wp_auto_rotate m) eqn:Eauto; cbn [negb].
    + destruct Hspec as [(Hset & Hr) | [(Hnone & Hr & Hall) | (Hnone & Hpos & Hset & _)]].
      * rewrite Hr.
        pose proof (flip_orient_range (info_orientation m)) as Hflip.
        replace (_ <? 0) with false by (symmetry; apply Z.ltb_ge; lia).
        destruct (files_at m _) as [ p | ] eqn:Ealt; [ | congruence ].
        split; [ split | ]; try discriminate.
        intros (_ & [Habs | Hall]); [ discriminate | ].
        rewrite (no_file_at m _ Hall) in Ealt. discriminate.
      * rewrite Hr. cbn. split; [ split; auto | ].
        intros code H. now inversion H.
      * replace (wallpaper_auto_rotate m <? 0) with false
          by (symmetry; apply Z.ltb_ge; lia).
        destruct (files_at m (wallpaper_auto_rotate m)) as [ p | ] eqn:Ealt;
          [ | congruence ].
        split; [ split | ]; try discriminate.
        intros (_ & [Habs | Hall]); [ discriminate | ].
        rewrite (no_file_at m _ Hall) in Ealt. discriminate.
    + split; [ split; auto | ]. intros code H. now inversion H.
  - destruct (files_at m (info_orientation m)) as [ p | ]; [ | discriminate ].
    split; [ split | ]; try discriminate.
    intros (Habs & _). discriminate.
Qed.

(** X12. Between two known orientations the rotation handed to the library
    is one of 0, 90, 180 and 270 degrees: a quarter turn for each step from
    the picture's orientation up to the monitor's.  It is 180 for the
    flipped orientation, and turning back undoes it. *)
Theorem rotation_is_quarter_turns (alter_orient orient : Z) :
  0 <= alter_orient < NUM_MONITOR_ORIENTS ->
  0 <= orient < NUM_MONITOR_ORIENTS ->
  wallpaper_rotation alter_orient orient = (orient - alter_orient) mod 4 * 90 /\
  wallpaper_rotation (flipped orient) orient = 180 /\
  (wallpaper_rotation alter_orient orient
   + wallpaper_rotation orient alter_orient) mod 360 = 0.
Proof.
  unfold NUM_MONITOR_ORIENTS. intros Ha Ho.
  assert (Ea : alter_orient = 0 \/ alter_orient = 1 \/ alter_orient = 2
               \/ alter_orient = 3) by lia.
  assert (Eo : orient = 0 \/ orient = 1 \/ orient = 2 \/ orient = 3) by lia.
  destruct Ea as [-> | [-> | [-> | ->]]], Eo as [-> | [-> | [-> | ->]]];
    repeat split.
Qed.

Lemma rotation_is_quarter_turns_witness :
  wallpaper_rotation ORIENT_270 ORIENT_0 = (ORIENT_0 - ORIENT_270) mod 4 * 90 /\
  wallpaper_rotation (flipped ORIENT_0) ORIENT_0 = 180 /\
  (wallpaper_rotation ORIENT_270 ORIENT_0
   + wallpaper_rotation ORIENT_0 ORIENT_270) mod 360 = 0.
Proof.
  apply (rotation_is_quarter_turns ORIENT_270 ORIENT_0);
    unfold NUM_MONITOR_ORIENTS, ORIENT_270, ORIENT_0; lia.
Defined.

(** * The renderer and the styles *)

(** The reference library delivers the sizes asked for. *)
Lemma pictures_keep_sizes (files : list (string * (Z * Z))) :
  keeps_sizes (pictures files).
Proof.
  unfold keeps_sizes; cbn.
  split; [ | split; [ | split ] ].
  - intros w c r w'. unfold picture_scale.
    destruct ((c <=? 0) || (r <=? 0)); [ discriminate | ].
    intros H; inversion H; subst; cbn; auto.
  - intros w c r x y w' H Hc Hr. unfold picture_extent in H.
    replace ((c =? 0) || (r =? 0)) with false in H
      by (symmetry; apply orb_false_iff; split; apply Z.eqb_neq; lia).
    inversion H; subst; cbn; auto.
  - intros w c r x y w' H Hx Hy Hc Hr Hcx Hry. unfold picture_crop in H.
    destruct (_ && _); [ | discriminate ].
    inversion H; subst; cbn. lia.
  - intros w tile x y w' H. unfold picture_composite in H.
    inversion H; subst; cbn; auto.
Qed.

Lemma pictures_never_fail (files : list (string * (Z * Z))) :
  never_fails (pictures files).
Proof.
  split; cbn.
  - intros w c r x y. unfold picture_extent. destruct (_ || _); discriminate.
  - intros w tile x y. unfold picture_composite. discriminate.
Qed.

Section Styles.

Context {magick : MagickWandAPI}.




End Styles.

(** The offset that centres a length [a] within a length [b]. *)
Lemma halves_apart (a b : Z) :
  0 <= a <= b -> 0 <= b / 2 - a / 2 /\ b / 2 - a / 2 + a <= b.
Proof.
  intros Hab.
  pose proof (Z.div_mod a 2 ltac:(lia)).
  pose proof (Z.div_mod b 2 ltac:(lia)).
  pose proof (Z.mod_pos_bound a 2 ltac:(lia)).
  pose proof (Z.mod_pos_bound b 2 ltac:(lia)).
  lia.
Qed.

Section StyleSizes.

Context {magick : MagickWandAPI}.

Lemma tile_loop_size (Hpaste :
    forall w tile x y w',
      MagickCompositeImage w tile x y = Some w' ->
      MagickGetImageWidth w' = MagickGetImageWidth w /\
      MagickGetImageHeight w' = MagickGetImageHeight w)
  (fuel : nat) (orig : MagickWand)
  (pic_width pic_height mon_width mon_height : Z) :
  forall w x y filled w',
    tile_loop fuel orig pic_width pic_height mon_width mon_height w x y filled
    = Some (OK, w') ->
    MagickGetImageWidth w' = MagickGetImageWidth w /\
    MagickGetImageHeight w' = MagickGetImageHeight w.
Proof.
  induction fuel as [ | fuel IH ]; intros w x y filled w'; cbn [tile_loop];
    destruct (filled <? mon_height); try discriminate;
    try (intros H; inversion H; auto; fail).
  destruct (MagickCompositeImage w orig (to_int32 x) (to_int32 y)) as [ w1 | ]
    eqn:Epaste; [ | discriminate ].
  destruct (Hpaste _ _ _ _ _ Epaste) as (Ew & Eh).
  destruct (mon_width <=? to_uint32 (x + pic_width)); intros H;
    destruct (IH _ _ _ _ _ H); split; congruence.
Qed.

Lemma tile_loop_ok (Hpaste :
    forall w tile x y, MagickCompositeImage w tile x y <> None)
  (fuel : nat) (orig : MagickWand)
  (pic_width pic_height mon_width mon_height : Z) :
  forall w x y filled st w',
    tile_loop fuel orig pic_width pic_height mon_width mon_height w x y filled
    = Some (st, w') ->
    st = OK.
Proof.
  induction fuel as [ | fuel IH ]; intros w x y filled st w'; cbn [tile_loop];
    destruct (filled <? mon_height); try discriminate;
    try (intros H; inversion H; auto; fail).
  destruct (MagickCompositeImage w orig (to_int32 x) (to_int32 y)) as [ w1 | ]
    eqn:Epaste; [ | exfalso; exact (Hpaste _ _ _ _ Epaste) ].
  destruct (mon_width <=? to_uint32 (x + pic_width)); apply IH.
Qed.

(** X14. With a library that delivers the sizes asked for, the CENTER style
    applied to a picture and a monitor of sizes between 1 and 2^31, when it
    succeeds, gives a tile of exactly the monitor's size, unless the picture
    is as wide as a square monitor and of another height (the case the early
    return mistakes for a picture that already fits). *)
Theorem center_tile_has_monitor_size (m : monitor) (w w' : MagickWand) :
  keeps_sizes magick ->
  picture_sized w -> monitor_sized m ->
  (info_width m = MagickGetImageWidth w ->
   info_height m = MagickGetImageWidth w ->
   MagickGetImageHeight w = info_height m) ->
  wallpaper_style_center_apply m w = (OK, w') ->
  monitor_size m w'.
Proof.
  intros (_ & Hext & Hcrop & _) (Hpw & Hph) (Hmw & Hmh) Hfits.
  unfold wallpaper_style_center_apply, monitor_size.
  rewrite !to_uint32_small by lia.
  destruct (Z.eqb_spec (info_width m) (MagickGetImageWidth w)) as [Ew | Nw];
    [ destruct (Z.eqb_spec (info_height m) (MagickGetImageWidth w))
        as [Eh | Nh] | ];
    cbn [andb].
  - intros H; inversion H; subst. split; [ lia | exact (Hfits Ew Eh) ].
  - destruct ((info_width m <? MagickGetImageWidth w)
              && (info_height m <? MagickGetImageHeight w)) eqn:Ebig.
    + apply andb_true_iff in Ebig. rewrite !Z.ltb_lt in Ebig. lia.
    + destruct (MagickExtentImage _ _ _ _ _) as [ w1 | ] eqn:E;
        [ | discriminate ].
      intros H; inversion H; subst. exact (Hext _ _ _ _ _ _ E (proj1 Hmw) (proj1 Hmh)).
  - destruct ((info_width m <? MagickGetImageWidth w)
              && (info_height m <? MagickGetImageHeight w)) eqn:Ebig.
    + apply andb_true_iff in Ebig. rewrite !Z.ltb_lt in Ebig.
      destruct Ebig as (Bw & Bh). cbv iota.
      pose proof (halves_apart (info_width m) (MagickGetImageWidth w)
                    ltac:(lia)) as Hx.
      pose proof (halves_apart (info_height m) (MagickGetImageHeight w)
                    ltac:(lia)) as Hy.
      rewrite !to_uint32_small, !to_int32_small by lia.
      destruct (MagickCropImage _ _ _ _ _) as [ w1 | ] eqn:E;
        [ | discriminate ].
      intros H; inversion H; subst.
      apply (Hcrop _ _ _ _ _ _ E); lia.
    + destruct (MagickExtentImage _ _ _ _ _) as [ w1 | ] eqn:E;
        [ | discriminate ].
      intros H; inversion H; subst. exact (Hext _ _ _ _ _ _ E (proj1 Hmw) (proj1 Hmh)).
Qed.

(** X15. With a library that delivers the sizes asked for, the TILE style
    applied to a picture and a monitor of sizes between 1 and 2^31, when it
    succeeds, gives a tile of exactly the monitor's size, whether the
    picture was cut at its top-left corner or repeated. *)
Theorem tile_tile_has_monitor_size (m : monitor) (w w' : MagickWand) :
  keeps_sizes magick ->
  picture_sized w -> monitor_sized m ->
  wallpaper_style_tile_apply m w = (OK, w') ->
  monitor_size m w'.
Proof.
  intros (_ & Hext & Hcrop & Hpaste) (Hpw & Hph) (Hmw & Hmh).
  unfold wallpaper_style_tile_apply, monitor_size.
  rewrite !to_uint32_small by lia.
  destruct ((info_width m <=? MagickGetImageWidth w)
            && (info_height m <=? MagickGetImageHeight w)) eqn:Ebig.
  - apply andb_true_iff in Ebig. rewrite !Z.leb_le in Ebig.
    destruct (MagickCropImage _ _ _ _ _) as [ w1 | ] eqn:E; [ | discriminate ].
    intros H; inversion H; subst.
    apply (Hcrop _ _ _ _ _ _ E); lia.
  - destruct (MagickExtentImage _ _ _ _ _) as [ w1 | ] eqn:E; [ | discriminate ].
    destruct (Hext _ _ _ _ _ _ E (proj1 Hmw) (proj1 Hmh)) as (Ew & Eh).
    destruct (tile_loop _ _ _ _ _ _ _ _ _ _) as [ [st w2] | ] eqn:Eloop;
      [ | discriminate ].
    intros H; inversion H; subst.
    destruct (tile_loop_size Hpaste _ _ _ _ _ _ _ _ _ _ _ Eloop). split; congruence.
Qed.

(** X16. The TILE style stops only on a failure of the library: when
    extending and pasting never fail and its cut of the picture does not,
    it ends with status 0 on every picture and every monitor of sizes
    between 1 and 2^31; the loop that repeats the picture always ends. *)
Theorem tile_succeeds (m : monitor) (w : MagickWand) :
  never_fails magick ->
  MagickCropImage w (info_width m) (info_height m) 0 0 <> None ->
  picture_sized w -> monitor_sized m ->
  fst (wallpaper_style_tile_apply m w) = OK.
Proof.
  intros (Hext & Hpaste) Hcrop (Hpw & Hph) (Hmw & Hmh).
  unfold wallpaper_style_tile_apply.
  rewrite !to_uint32_small by lia.
  destruct (_ && _).
  - destruct (MagickCropImage _ _ _ _ _); [ reflexivity | congruence ].
  - destruct (MagickExtentImage _ _ _ _ _) as [ w1 | ] eqn:E;
      [ | exfalso; exact (Hext _ _ _ _ _ E) ].
    destruct (tile_loop _ _ _ _ _ _ _ _ _ _) as [ [st w2] | ] eqn:Eloop.
    + cbn. exact (tile_loop_ok Hpaste _ _ _ _ _ _ _ _ _ _ _ _ Eloop).
    + exfalso. revert Eloop. apply tile_loop_ends; lia.
Qed.

End StyleSizes.

Lemma center_tile_has_monitor_size_witness :
  @monitor_size (pictures disk) centered (picture_of_size 1920 1080).
Proof.
  apply (@center_tile_has_monitor_size (pictures disk) centered
           (picture_of_size 800 600) (picture_of_size 1920 1080)).
  - apply pictures_keep_sizes.
  - unfold picture_sized; cbn; lia.
  - unfold monitor_sized; cbn; lia.
  - cbn. intros H; discriminate H.
  - reflexivity.
Defined.

Lemma tile_tile_has_monitor_size_witness :
  @monitor_size (pictures disk) tiled
    {| columns := 640; rows := 400;
       pasted := [(0, 0, 200, 100); (200, 0, 200, 100); (400, 0, 200, 100);
                  (600, 0, 200, 100); (0, 100, 200, 100); (200, 100, 200, 100);
                  (400, 100, 200, 100); (600, 100, 200, 100);
                  (0, 200, 200, 100); (200, 200, 200, 100);
                  (400, 200, 200, 100); (600, 200, 200, 100);
                  (0, 300, 200, 100); (200, 300, 200, 100);
                  (400, 300, 200, 100); (600, 300, 200, 100)] |}.
Proof.
  apply (@tile_tile_has_monitor_size (pictures disk) tiled
           (picture_of_size 200 100)).
  - apply pictures_keep_sizes.
  - unfold picture_sized; cbn; lia.
  - unfold monitor_sized; cbn; lia.
  - vm_compute. reflexivity.
Defined.

Lemma tile_succeeds_witness :
  fst (@wallpaper_style_tile_apply (pictures disk) tiled (picture_of_size 200 100))
  = OK.
Proof.
  apply (@tile_succeeds (pictures disk) tiled (picture_of_size 200 100)).
  - apply pictures_never_fail.
  - cbn. discriminate.
  - unfold picture_sized; cbn; lia.
  - unfold monitor_sized; cbn; lia.
Defined.

(** * The compositor *)

Section Generate.

Context {magick : MagickWandAPI}.

(** The first loop, read entry by entry. *)
Lemma wallpapers_load_fold (monitors : list monitor) :
  forall (err : status) (wallpapers : list (option MagickWand)),
    fold_left
      (fun '(err, wallpapers) m =>
         if negb (active m) then (err, wallpapers ++ [None])
         else
           let '(err', out) := wallpaper_load m in
           (err', wallpapers ++ [out]))
      monitors (err, wallpapers)
    = (load_status err monitors,
       wallpapers
       ++ map (fun m => if active m then snd (wallpaper_load m) else None)
              monitors).
Proof.
  induction monitors as [ | m rest IH ]; intros err wallpapers.
  - cbn. now rewrite app_nil_r.
  - cbn [fold_left map load_status].
    destruct (active m); cbn [negb].
    + destruct (wallpaper_load m) as [err' out]. cbn [fst snd].
      rewrite IH, <- app_assoc. reflexivity.
    + rewrite IH, <- app_assoc. reflexivity.
Qed.

Lemma load_status_inactive (monitors : list monitor) (err : status) :
  Forall (fun m => active m = false) monitors ->
  load_status err monitors = err.
Proof.
  induction 1 as [ | m rest Hm _ IH ]; [ reflexivity | ].
  cbn [load_status fold_left] in *. now rewrite Hm.
Qed.

Lemma load_status_last (before after : list monitor) (m : monitor) (err : status) :
  active m = true ->
  Forall (fun m => active m = false) after ->
  load_status err (before ++ m :: after) = fst (wallpaper_load m).
Proof.
  intros Hact Hoff. unfold load_status.
  rewrite fold_left_app. cbn [fold_left]. rewrite Hact.
  exact (load_status_inactive after _ Hoff).
Qed.

(** X17. The first loop of [wallpaper_generate] fills the [wallpapers]
    array entry by entry, an inactive monitor getting no tile and an active
    one what its [wallpaper_load] hands out; the status it leaves is that of
    the last active monitor, whatever happened to the monitors before it,
    and 0 when no monitor is active. *)
Theorem wallpapers_load_keeps_last_status (monitors : list monitor) :
  snd (wallpapers_load monitors)
  = map (fun m => if active m then snd (wallpaper_load m) else None) monitors /\
  (forall before m after,
      monitors = before ++ m :: after ->
      active m = true ->
      Forall (fun m => active m = false) after ->
      fst (wallpapers_load monitors) = fst (wallpaper_load m)) /\
  (Forall (fun m => active m = false) monitors ->
   fst (wallpapers_load monitors) = OK).
Proof.
  unfold wallpapers_load. rewrite wallpapers_load_fold. cbn [fst snd app].
  split; [ reflexivity | split ].
  - intros before m after -> Hact Hoff. now apply load_status_last.
  - intros Hoff. now apply load_status_inactive.
Qed.


Lemma wallpapers_composite_size
  (Hpaste :
    forall w tile x y w',
      MagickCompositeImage w tile x y = Some w' ->
      MagickGetImageWidth w' = MagickGetImageWidth w /\
      MagickGetImageHeight w' = MagickGetImageHeight w)
  (tiles : list (monitor * option MagickWand)) :
  forall canvas canvas',
    wallpapers_composite canvas tiles = Some canvas' ->
    MagickGetImageWidth canvas' = MagickGetImageWidth canvas /\
    MagickGetImageHeight canvas' = MagickGetImageHeight canvas.
Proof.
  induction tiles as [ | [m wallpaper] rest IH ]; intros canvas canvas';
    cbn [wallpapers_composite].
  - intros H; inversion H; auto.
  - destruct (active m), wallpaper as [ tile | ]; try apply IH.
    destruct (MagickCompositeImage canvas tile _ _) as [ c1 | ] eqn:E;
      [ | discriminate ].
    intros H. destruct (IH _ _ H). destruct (Hpaste _ _ _ _ _ E).
    split; congruence.
Qed.

(** X19. With a library that delivers the sizes asked for, a canvas that
    [wallpaper_generate] writes has exactly the width and the height of the
    virtual desktop it was given, when these are positive. *)
Theorem written_canvas_has_desktop_size
  (out_path : string) (virt_desk : rectangle) (monitors : list monitor)
  (canvas : MagickWand) :
  keeps_sizes magick ->
  0 < r_width virt_desk -> 0 < r_height virt_desk ->
  snd (wallpaper_generate out_path virt_desk monitors) = Some canvas ->
  MagickGetImageWidth canvas = r_width virt_desk /\
  MagickGetImageHeight canvas = r_height virt_desk.
Proof.
  intros (_ & Hext & _ & Hpaste) Hw Hh. unfold wallpaper_generate.
  destruct (wallpapers_load monitors) as [err wallpapers].
  destruct (MagickReadImage "XC:") as [ c0 | ]; [ | discriminate ].
  destruct (MagickExtentImage _ _ _ _ _) as [ c1 | ] eqn:E; [ | discriminate ].
  destruct (wallpapers_composite c1 _) as [ c2 | ] eqn:Ec; [ | discriminate ].
  destruct (MagickWriteImage c2 out_path); [ | discriminate ].
  cbn. intros H; inversion H; subst.
  destruct (Hext _ _ _ _ _ _ E Hw Hh).
  destruct (wallpapers_composite_size Hpaste _ _ _ Ec).
  split; congruence.
Qed.

End Generate.

Lemma wallpapers_load_keeps_last_status_witness :
  fst (@wallpapers_load (pictures disk_a)
         (display_info_update side_by_side two_stretched))
  = Err EIO.
Proof.
  rewrite (proj1 (proj2 (@wallpapers_load_keeps_last_status (pictures disk_a)
                           (display_info_update side_by_side two_stretched)))
             [set_info (monitor_configured false WALLPAPER_STYLE_STRETCH
                          [Some "a.bmp"%string; None; None; None])
                true 0 0 1920 1080 0 true]
             (set_info (monitor_configured false WALLPAPER_STYLE_STRETCH
                          [Some "b.bmp"%string; None; None; None])
                true 1920 0 1920 1080 0 false)
             (repeat monitor_blank 6)).
  - reflexivity.
  - reflexivity.
  - reflexivity.
  - repeat (apply Forall_cons; [ reflexivity | ]). apply Forall_nil.
Defined.

Lemma written_canvas_has_desktop_size_witness :
  @MagickGetImageWidth (pictures disk)
    {| columns := 3840; rows := 1080;
       pasted := [(0, 0, 1920, 1080); (1920, 0, 1920, 1080)] |} = 3840 /\
  @MagickGetImageHeight (pictures disk)
    {| columns := 3840; rows := 1080;
       pasted := [(0, 0, 1920, 1080); (1920, 0, 1920, 1080)] |} = 1080.
Proof.
  apply (@written_canvas_has_desktop_size (pictures disk) out_file
           {| r_x := 0; r_y := 0; r_width := 3840; r_height := 1080 |}
           (snd (layout virtual_desktop_init two_stretched side_by_side))).
  - apply pictures_keep_sizes.
  - cbn. lia.
  - cbn. lia.
  - vm_compute. reflexivity.
Defined.

(** * Further instances *)

Lemma enumeration_keeps_configuration_witness :
  exists m',
    nth_error (display_info_update side_by_side two_stretched) 1 = Some m' /\
    exists m,
      nth_error two_stretched 1 = Some m /\
      wp_auto_rotate m' = wp_auto_rotate m /\
      wp_style m' = wp_style m /\
      wp_bg_color m' = wp_bg_color m /\
      wp_files m' = wp_files m /\
      virt_pos_x m' = virt_pos_x m /\
      virt_pos_y m' = virt_pos_y m.
Proof.
  eexists. split; [ reflexivity | ].
  apply (proj2 (enumeration_keeps_configuration side_by_side two_stretched) 1%nat).
  reflexivity.
Defined.

Lemma no_source_iff_witness :
  wallpaper_source (empty_entry false) = inl ENODATA.
Proof.
  apply (proj1 (no_source_iff (empty_entry false))).
  split; [ reflexivity | left; reflexivity ].
Defined.



(** * The empty path *)

Section EmptyPath.

Context {magick : MagickWandAPI}.

(** With the own entry unset and auto-rotate on, the source is the entry
    [wallpaper_auto_rotate] points at. *)
Lemma wallpaper_source_fallback (m : monitor) (path : string) :
  path_unset (files_at m (info_orientation m)) = true ->
  wp_auto_rotate m = true ->
  0 <= wallpaper_auto_rotate m ->
  files_at m (wallpaper_auto_rotate m) = Some path ->
  wallpaper_source m = inr (path, wallpaper_auto_rotate m).
Proof.
  intros Hown Hauto Hpos Hat. unfold wallpaper_source.
  rewrite Hown, Hauto. cbn [negb].
  replace (wallpaper_auto_rotate m <? 0) with false
    by (symmetry; apply Z.ltb_ge; lia).
  now rewrite Hat.
Qed.

(** The flipped entry is taken as soon as it is not [NULL]. *)
Lemma wallpaper_source_flipped (m : monitor) (path : string) :
  0 <= info_orientation m < NUM_MONITOR_ORIENTS ->
  path_unset (files_at m (info_orientation m)) = true ->
  wp_auto_rotate m = true ->
  files_at m (flipped (info_orientation m)) = Some path ->
  wallpaper_source m = inr (path, flipped (info_orientation m)).
Proof.
  intros Ho Hown Hauto Hflip.
  pose proof (wallpaper_auto_rotate_spec m) as Hspec. cbv zeta in Hspec.
  rewrite (flip_orient_known _ Ho) in Hspec.
  pose proof (flip_orient_range (info_orientation m)) as Hrange.
  rewrite (flip_orient_known _ Ho) in Hrange.
  destruct Hspec as [(_ & Hr) | [(Hnone & _) | (Hnone & _)]];
    try congruence.
  rewrite <- Hr. apply wallpaper_source_fallback; try assumption.
  - rewrite Hr. lia.
  - now rewrite Hr.
Qed.

(** Without a flipped entry, the first entry that is not [NULL] is
    taken. *)
Lemma wallpaper_source_scanned (m : monitor) (path : string) (k : Z) :
  0 <= info_orientation m < NUM_MONITOR_ORIENTS ->
  path_unset (files_at m (info_orientation m)) = true ->
  wp_auto_rotate m = true ->
  files_at m (flipped (info_orientation m)) = None ->
  0 <= k ->
  files_at m k = Some path ->
  (forall j, 0 <= j < k -> files_at m j = None) ->
  wallpaper_source m = inr (path, k).
Proof.
  intros Ho Hown Hauto Hflip Hk Hat Hbelow.
  pose proof (wallpaper_auto_rotate_spec m) as Hspec. cbv zeta in Hspec.
  rewrite (flip_orient_known _ Ho) in Hspec.
  destruct Hspec as [(Hset & _) | [(_ & _ & Hall) | (_ & Hpos & Hset & Hfirst)]].
  - congruence.
  - rewrite (no_file_at m k Hall) in Hat. discriminate.
  - assert (Hr : wallpaper_auto_rotate m = k).
    { destruct (Z.lt_trichotomy (wallpaper_auto_rotate m) k) as [Hlt | [E | Hgt]].
      - exfalso. apply Hset. apply Hbelow. lia.
      - exact E.
      - rewrite (Hfirst k) in Hat by lia. discriminate. }
    rewrite <- Hr. apply wallpaper_source_fallback; try assumption.
    now rewrite Hr.
Qed.

(** C10. The monitor's own entry counts as unset when it is the empty
    string: without auto-rotate such a monitor has no source ([ENODATA]).
    The fallback, for its part, takes any entry that is not [NULL], the
    empty string included: with the own entry unset and auto-rotate on, the
    entry of the flipped orientation is the source as soon as it is not
    [NULL], and, failing that, so is the first entry that is not [NULL] in
    the order 0, 90, 180, 270, whatever path either holds.  Consequently a
    source resolved to the empty path reaches the reader, and when the
    library cannot read that path [wallpaper_load] ends with [EIO], the code
    of a failed load, not with [ENODATA]; this is what happens to every
    monitor whose entries are all [NULL] or empty and not all [NULL]. *)
Theorem empty_path_reaches_the_reader :
  (forall m,
      active m = true ->
      0 <= info_orientation m < NUM_MONITOR_ORIENTS ->
      files_at m (info_orientation m) = Some EmptyString ->
      wp_auto_rotate m = false ->
      wallpaper_source m = inl ENODATA /\
      wallpaper_load m = (Err ENODATA, None)) /\
  (forall m path,
      0 <= info_orientation m < NUM_MONITOR_ORIENTS ->
      path_unset (files_at m (info_orientation m)) = true ->
      wp_auto_rotate m = true ->
      files_at m (flipped (info_orientation m)) = Some path ->
      wallpaper_source m = inr (path, flipped (info_orientation m))) /\
  (forall m path k,
      0 <= info_orientation m < NUM_MONITOR_ORIENTS ->
      path_unset (files_at m (info_orientation m)) = true ->
      wp_auto_rotate m = true ->
      files_at m (flipped (info_orientation m)) = None ->
      0 <= k ->
      files_at m k = Some path ->
      (forall j, 0 <= j < k -> files_at m j = None) ->
      wallpaper_source m = inr (path, k)) /\
  (forall m alter_orient,
      active m = true ->
      0 <= info_orientation m < NUM_MONITOR_ORIENTS ->
      wallpaper_source m = inr (EmptyString, alter_orient) ->
      MagickReadImage EmptyString = None ->
      wallpaper_load m = (Err EIO, None)) /\
  (forall m,
      active m = true ->
      0 <= info_orientation m < NUM_MONITOR_ORIENTS ->
      wp_auto_rotate m = true ->
      List.length (wp_files m) = 4%nat ->
      Forall null_or_empty (wp_files m) ->
      Exists (fun path => path <> None) (wp_files m) ->
      MagickReadImage EmptyString = None ->
      (exists alter_orient,
          files_at m alter_orient = Some EmptyString /\
          wallpaper_source m = inr (EmptyString, alter_orient)) /\
      wallpaper_load m = (Err EIO, None)).
Proof.
  split; [ | split; [ | split; [ | split ] ] ].
  - intros m Hact Ho Hown Hauto.
    assert (Hsrc : wallpaper_source m = inl ENODATA).
    { unfold wallpaper_source. rewrite Hown, Hauto. reflexivity. }
    split; [ exact Hsrc | ].
    unfold wallpaper_load. rewrite Hact. cbn [negb].
    replace (NUM_MONITOR_ORIENTS <=? info_orientation m) with false
      by (symmetry; apply Z.leb_gt; lia).
    now rewrite Hsrc.
  - exact wallpaper_source_flipped.
  - exact wallpaper_source_scanned.
  - intros m alter_orient Hact Ho Hsrc Hread.
    exact (wallpaper_load_unreadable m _ _ Hact Ho Hsrc Hread).
  - intros m Hact Ho Hauto Hlen Hall Hex Hread.
    destruct (wallpaper_source_empty_path m Ho Hauto Hlen Hall Hex)
      as (alter_orient & _ & Hat & Hsrc).
    split; [ exists alter_orient; auto | ].
    exact (wallpaper_load_unreadable m _ _ Hact Ho Hsrc Hread).
Qed.

End EmptyPath.

Lemma empty_path_reaches_the_reader_witness :
  (wallpaper_source (empty_entry false) = inl ENODATA /\
   (@wallpaper_load (pictures disk) (empty_entry false)) = (Err ENODATA, None)) /\
  (wallpaper_source empty_flipped = inr (EmptyString, ORIENT_180) /\
   (@wallpaper_load (pictures disk) empty_flipped) = (Err EIO, None)) /\
  (wallpaper_source empty_first = inr (EmptyString, ORIENT_0) /\
   (@wallpaper_load (pictures disk) empty_first) = (Err EIO, None)) /\
  ((exists alter_orient,
       files_at (empty_entry true) alter_orient = Some EmptyString /\
       wallpaper_source (empty_entry true) = inr (EmptyString, alter_orient)) /\
   (@wallpaper_load (pictures disk) (empty_entry true)) = (Err EIO, None)).
Proof.
  pose proof (@empty_path_reaches_the_reader (pictures disk))
    as (Hown & Hflip & Hscan & Hread & Hall).
  assert (Hknown : 0 <= 0 < 4) by lia.
  assert (Hsrc1 : wallpaper_source empty_flipped = inr (EmptyString, ORIENT_180)).
  { apply (Hflip empty_flipped EmptyString); first [ exact Hknown | reflexivity ]. }
  assert (Hsrc2 : wallpaper_source empty_first = inr (EmptyString, ORIENT_0)).
  { apply (Hscan empty_first EmptyString ORIENT_0);
      first [ exact Hknown | reflexivity | unfold ORIENT_0; intros; lia ]. }
  split; [ | split; [ | split ] ].
  - apply (Hown (empty_entry false)); first [ exact Hknown | reflexivity ].
  - split; [ exact Hsrc1 | ].
    apply (Hread empty_flipped ORIENT_180);
      first [ exact Hknown | exact Hsrc1 | reflexivity ].
  - split; [ exact Hsrc2 | ].
    apply (Hread empty_first ORIENT_0);
      first [ exact Hknown | exact Hsrc2 | reflexivity ].
  - apply (Hall (empty_entry true));
      first [ exact Hknown | reflexivity
            | apply Exists_cons_hd; discriminate
            | repeat (apply Forall_cons; [ unfold null_or_empty; auto | ]);
              apply Forall_nil ].
Defined.
